(** * Verification of axolotl's training callbacks ([axolotl/utils/callbacks.py])

    A shallow embedding of the callbacks: Python dicts are association
    lists with Python's insertion-ordered update, Python floats are
    rationals with an explicit NaN, and raised exceptions are explicit
    error results. *)

From Stdlib Require Import List String Ascii ZArith QArith Qround Bool Lia.
Import ListNotations.

Open Scope Z_scope.

(** ** Python dicts *)

Module PyDict.

Section Dict.
Context {V : Type}.

Definition dict := list (string * V).

(** [d[k]] *)
Fixpoint get (k : string) (d : dict) : option V :=
  match d with
  | [] => None
  | (k', v') :: d' => if string_dec k k' then Some v' else get k d'
  end.

(** [d[k] = v]: an existing key keeps its position, a new key is
    appended at the end. *)
Fixpoint set (k : string) (v : V) (d : dict) : dict :=
  match d with
  | [] => [(k, v)]
  | (k', v') :: d' =>
      if string_dec k k' then (k', v) :: d' else (k', v') :: set k v d'
  end.

(** [k in d] *)
Definition mem (k : string) (d : dict) : bool :=
  match get k d with Some _ => true | None => false end.

(** [for key, val in src.items(): dst[key] = val] *)
Definition update (dst src : dict) : dict :=
  fold_left (fun m kv => set (fst kv) (snd kv) m) src dst.

End Dict.

Arguments dict : clear implicits.

End PyDict.

(** ** Python strings *)

(** [s.startswith(p)] *)
Fixpoint startswith (p s : string) : bool :=
  match p, s with
  | EmptyString, _ => true
  | String a p', String b s' => Ascii.eqb a b && startswith p' s'
  | String _ _, EmptyString => false
  end.

(** [s[n:]] *)
Fixpoint str_drop (n : nat) (s : string) : string :=
  match n, s with
  | O, _ => s
  | S n', String _ s' => str_drop n' s'
  | S _, EmptyString => EmptyString
  end.

(** ** [rewrite_logs] *)

Section RewriteLogs.
Context {V : Type}.

Record logs_buckets := {
  train : PyDict.dict V;
  eval : PyDict.dict V;
  test : PyDict.dict V;
}.

Definition eval_prefix : string := "eval_".
Definition test_prefix : string := "test_".

Definition rewrite_logs_step (new_d : logs_buckets) (kv : string * V) : logs_buckets :=
  let (k, v) := kv in
  if startswith eval_prefix k then
    {| train := train new_d;
       eval := PyDict.set (str_drop (String.length eval_prefix) k) v (eval new_d);
       test := test new_d |}
  else if startswith test_prefix k then
    {| train := train new_d; eval := eval new_d;
       test := PyDict.set (str_drop (String.length test_prefix) k) v (test new_d) |}
  else
    {| train := PyDict.set k v (train new_d); eval := eval new_d; test := test new_d |}.

Definition rewrite_logs (d : PyDict.dict V) : logs_buckets :=
  fold_left rewrite_logs_step d {| train := []; eval := []; test := [] |}.

End RewriteLogs.

Arguments logs_buckets : clear implicits.

(** ** Python numbers and exceptions *)

(** A Python float: a finite value (as a rational) or NaN. *)
Inductive num := Fin (q : Q) | NaN.

(** The exceptions the embedded code can raise. *)
Inductive py_exn :=
| FileNotFoundError (msg : string)
| ConnectionError (msg : string)
| TypeError
| ZeroDivisionError
| IndexError
| ValueError
| RuntimeError
| OtherError (msg : string).

(** [a % b] for a float [b]: the result has the sign of [b]; a zero
    divisor raises ZeroDivisionError. *)
Definition pymod (a b : Q) : option Q :=
  if Qeq_bool b 0 then None else Some (a - b * inject_Z (Qfloor (a / b)))%Q.

(** [a < b] on floats. *)
Definition Qlt_bool (a b : Q) : bool := negb (Qle_bool b a).

(** [l[i]], with Python's negative indices. *)
Definition py_index {A} (l : list A) (i : Z) : option A :=
  let n := Z.of_nat (List.length l) in
  if 0 <=? i then nth_error l (Z.to_nat i)
  else if - n <=? i then nth_error l (Z.to_nat (n + i))
  else None.

(** ** Trainer arguments, state and control (the subset the callbacks read) *)

Inductive IntervalStrategy := NO | STEPS | EPOCH.

Definition strategy_eqb (a b : IntervalStrategy) : bool :=
  match a, b with
  | NO, NO | STEPS, STEPS | EPOCH, EPOCH => true
  | _, _ => false
  end.

Record TrainingArguments := {
  evaluation_strategy : IntervalStrategy;
  eval_steps : Q;
  save_strategy : IntervalStrategy;
  save_steps : Q;
  logging_steps : Q;
  output_dir : string;
}.

Record TrainerState := {
  global_step : Z;
  max_steps : Z;
  is_world_process_zero : bool;
}.

Record TrainerControl := {
  should_training_stop : bool;
  should_epoch_stop : bool;
  should_save : bool;
  should_evaluate : bool;
  should_log : bool;
}.

Definition set_should_evaluate (c : TrainerControl) (b : bool) : TrainerControl :=
  {| should_training_stop := should_training_stop c;
     should_epoch_stop := should_epoch_stop c;
     should_save := should_save c;
     should_evaluate := b;
     should_log := should_log c |}.

Definition set_should_save (c : TrainerControl) (b : bool) : TrainerControl :=
  {| should_training_stop := should_training_stop c;
     should_epoch_stop := should_epoch_stop c;
     should_save := b;
     should_evaluate := should_evaluate c;
     should_log := should_log c |}.

(** ** [EvalFirstStepCallback] *)

Module EvalFirstStepCallback.

Definition on_step_end (args : TrainingArguments) (state : TrainerState)
    (control : TrainerControl) : TrainerControl :=
  if strategy_eqb (evaluation_strategy args) STEPS
     && Qlt_bool (eval_steps args) 1
     && (global_step state =? 1)
  then set_should_evaluate control true
  else control.

End EvalFirstStepCallback.

(** ** [SaveBetterTransformerModelCallback] *)

Module SaveBetterTransformerModelCallback.

(** [model.save_pretrained(os.path.join(output_dir, f"checkpoint-{step}"))]
    is recorded as the pair [(output_dir, step)]. *)
Definition checkpoint := (string * Z)%type.

Definition save_due (args : TrainingArguments) (state : TrainerState) : bool :=
  strategy_eqb (save_strategy args) STEPS
  && Qlt_bool 0 (save_steps args)
  && match pymod (inject_Z (global_step state)) (save_steps args) with
     | Some r => Qeq_bool r 0
     | None => false (* unreachable: [save_steps > 0] was checked first *)
     end.

(** Returns the control object and the checkpoints written. *)
Definition on_step_end (args : TrainingArguments) (state : TrainerState)
    (control : TrainerControl) : TrainerControl * list checkpoint :=
  let control := if save_due args state then set_should_save control true else control in
  if should_save control then
    (set_should_save control false, [(output_dir args, global_step state)])
  else (control, []).

End SaveBetterTransformerModelCallback.

(** ** [SaveAxolotlConfigtoWandBCallback] *)

Module SaveAxolotlConfigtoWandBCallback.

Inductive log_entry := Info (msg : string) | Warning (msg : string).

Definition exn_str (e : py_exn) : string :=
  match e with
  | FileNotFoundError m | ConnectionError m | OtherError m => m
  | _ => ""
  end.

(** The exceptions of the [except (FileNotFoundError, ConnectionError)] clause. *)
Definition caught (e : py_exn) : bool :=
  match e with FileNotFoundError _ | ConnectionError _ => true | _ => false end.

Record outcome := {
  (** the raised exception, or the value returned *)
  returned : py_exn + TrainerControl;
  (** whether the artifact upload was attempted *)
  upload_attempted : bool;
  logged : list log_entry;
}.

(** [upload] is the outcome of the three wandb calls (artifact creation,
    [add_file], [log_artifact]): [None] when they succeed, the raised
    exception otherwise. *)
Definition on_train_begin (is_main_process : bool) (upload : option py_exn)
    (control : TrainerControl) : outcome :=
  if is_main_process then
    match upload with
    | None =>
        {| returned := inr control; upload_attempted := true;
           logged := [Info "Axolotl config has been saved to WandB as an artifact."] |}
    | Some err =>
        if caught err then
          {| returned := inr control; upload_attempted := true;
             logged := [Warning ("Error while saving Axolotl config to WandB: " ++ exn_str err)%string] |}
        else {| returned := inl err; upload_attempted := true; logged := [] |}
    end
  else {| returned := inr control; upload_attempted := false; logged := [] |}.

End SaveAxolotlConfigtoWandBCallback.

(** ** [RunPodCallback] *)

Module RunPodCallback.

Section RunPod.
(** The type of [self.metrics] (the last [rewrite_logs] result) and the
    JSON serialisation done by [json.dumps]. *)
Context {Metrics : Type} (empty_metrics : Metrics).

Record progress_content := {
  step : Z;
  total_steps : Z;
  elapsed : Q;
  remaining : Q;
  metrics_sent : Metrics;
  wandb : option string;
}.

Context (json_dumps : progress_content -> string).

Record runpod := {
  last_logged_step : option Z;
  wandb_run_url : option string;
  job_id : string;
  total_tracked_steps : option Z;  (** [None] until [on_train_begin] sets it *)
  current_tracked_steps : Z;
  training_start_time : Q;
  total_eval_time : Q;
  last_log_time : Q;
  metrics : Metrics;
  (** messages passed to [runpod.serverless.progress_update] *)
  sent : list string;
}.

(** [__init__], at wall time [now]. *)
Definition init (job : string) (now : Q) : runpod :=
  {| last_logged_step := None; wandb_run_url := None; job_id := job;
     total_tracked_steps := None; current_tracked_steps := 0;
     training_start_time := now; total_eval_time := 0; last_log_time := now;
     metrics := empty_metrics; sent := [] |}.

(** [_send_update] *)
Definition send_update (s : runpod) (content : progress_content) : runpod :=
  {| last_logged_step := last_logged_step s; wandb_run_url := wandb_run_url s;
     job_id := job_id s; total_tracked_steps := total_tracked_steps s;
     current_tracked_steps := current_tracked_steps s;
     training_start_time := training_start_time s; total_eval_time := total_eval_time s;
     last_log_time := last_log_time s; metrics := metrics s;
     sent := sent s ++ [json_dumps content] |}.

(** [on_train_begin]: [wandb_url] is [wandb.run.get_url()] when a run
    exists, [total_kw] the [total_num_training_steps] keyword argument. *)
Definition on_train_begin (wandb_url : option string) (state : TrainerState)
    (total_kw : option Z) (now : Q) (s : runpod) : runpod :=
  let url := match wandb_url with Some u => Some u | None => wandb_run_url s end in
  if is_world_process_zero state then
    {| last_logged_step := Some (global_step state); wandb_run_url := url;
       job_id := job_id s;
       total_tracked_steps :=
         Some (match total_kw with Some t => t | None => max_steps state end);
       current_tracked_steps := current_tracked_steps s;
       training_start_time := now; total_eval_time := total_eval_time s;
       last_log_time := last_log_time s; metrics := metrics s; sent := sent s |}
  else
    {| last_logged_step := last_logged_step s; wandb_run_url := url;
       job_id := job_id s; total_tracked_steps := total_tracked_steps s;
       current_tracked_steps := current_tracked_steps s;
       training_start_time := training_start_time s; total_eval_time := total_eval_time s;
       last_log_time := last_log_time s; metrics := metrics s; sent := sent s |}.

Definition with_tracked_steps (s : runpod) (n : Z) : runpod :=
  {| last_logged_step := last_logged_step s; wandb_run_url := wandb_run_url s;
     job_id := job_id s; total_tracked_steps := total_tracked_steps s;
     current_tracked_steps := n;
     training_start_time := training_start_time s; total_eval_time := total_eval_time s;
     last_log_time := last_log_time s; metrics := metrics s; sent := sent s |}.

Definition with_last_log_time (s : runpod) (t : Q) : runpod :=
  {| last_logged_step := last_logged_step s; wandb_run_url := wandb_run_url s;
     job_id := job_id s; total_tracked_steps := total_tracked_steps s;
     current_tracked_steps := current_tracked_steps s;
     training_start_time := training_start_time s; total_eval_time := total_eval_time s;
     last_log_time := t; metrics := metrics s; sent := sent s |}.

(** [on_step_end] at wall time [now] ([time.time()]).  The result pairs
    the exception raised, if any, with the object's state, since the
    increment of [current_tracked_steps] happens before anything can raise. *)
Definition on_step_end (args : TrainingArguments) (state : TrainerState) (now : Q)
    (s : runpod) : option py_exn * runpod :=
  let s := with_tracked_steps s (current_tracked_steps s + 1) in
  let current_time := now in
  let training_time_elapsed :=
    (current_time - training_start_time s - total_eval_time s)%Q in
  match pymod (inject_Z (global_step state)) (logging_steps args) with
  | None => (Some ZeroDivisionError, s)
  | Some r =>
      if Qeq_bool r 0 then
        let time_per_step := (training_time_elapsed / inject_Z (current_tracked_steps s))%Q in
        match total_tracked_steps s with
        | None => (Some TypeError, s)  (* [None - int] *)
        | Some total =>
            let time_remaining :=
              (time_per_step * inject_Z (total - current_tracked_steps s))%Q in
            let progress :=
              {| step := global_step state; total_steps := total;
                 elapsed := training_time_elapsed; remaining := time_remaining;
                 metrics_sent := metrics s; wandb := wandb_run_url s |} in
            (None, with_last_log_time (send_update s progress) current_time)
        end
      else (None, s)
  end.

End RunPod.

End RunPodCallback.

(** ** The benchmark evaluation ([bench_eval_callback_factory]) *)

Module BenchEval.

Definition IGNORE_INDEX : Z := -100.
Definition bench_split : string := "eval".

(** [label in abcd_idx] *)
Definition z_in (x : Z) (l : list Z) : bool := existsb (Z.eqb x) l.

(** [l.index(x)] (ValueError when absent is never reached: callers test
    membership first) *)
Fixpoint z_index (x : Z) (l : list Z) : option nat :=
  match l with
  | [] => None
  | y :: l' => if Z.eqb x y then Some O else option_map S (z_index x l')
  end.

Fixpoint omap {A B} (f : A -> option B) (l : list A) : option (list B) :=
  match l with
  | [] => Some []
  | x :: l' =>
      match f x, omap f l' with
      | Some y, Some ys => Some (y :: ys)
      | _, _ => None
      end
  end.

(** *** [tokenize_evals] and the option-token filter *)

Record bench_example := {
  ex_input : string;
  ex_output : string;
  ex_subject : string;
  ex_name : string;
}.

Record tokenized_example := {
  tk_example : bench_example;
  input_ids : list Z;
  labels : list Z;
}.

Section Tokenize.
(** The tokenizer without special tokens ([add_special_tokens=False]),
    its [bos_token] and [eos_token] strings, and the ids of "A" .. "G". *)
Context (tok : string -> list Z) (bos_token eos_token : string) (abcd_idx : list Z).

(** [tokenizer(s, max_length=2048, truncation=True, add_special_tokens=False)["input_ids"]]:
    truncation keeps the first [max_length] tokens. *)
Definition tokenize (s : string) : list Z := firstn 2048 (tok s).

Definition tokenize_evals (example : bench_example) : tokenized_example :=
  let source := (bos_token ++ ex_input example)%string in
  let target := (ex_output example ++ eos_token)%string in
  let tokenized_source := tokenize source in
  let tokenized_target := tokenize target in
  {| tk_example := example;
     input_ids := tokenized_source ++ tokenized_target;
     labels := repeat IGNORE_INDEX (List.length tokenized_source) ++ tokenized_target |}.

(** [lambda x: x["labels"][-2] in abcd_idx]; [x["labels"][-2]] raises
    IndexError on fewer than two labels. *)
Definition keep_row (x : tokenized_example) : option bool :=
  option_map (fun t => z_in t abcd_idx) (py_index (labels x) (-2)).

(** [Dataset.filter]: an exception in the predicate aborts the filter. *)
Fixpoint ds_filter (ds : list tokenized_example) : option (list tokenized_example) :=
  match ds with
  | [] => Some []
  | x :: ds' =>
      match keep_row x, ds_filter ds' with
      | Some true, Some r => Some (x :: r)
      | Some false, Some r => Some r
      | _, _ => None
      end
  end.

(** [bench_dataset.map(tokenize_evals)] followed by the filter. *)
Definition prepare_bench_dataset (ds : list bench_example) : option (list tokenized_example) :=
  ds_filter (map tokenize_evals ds).

End Tokenize.

(** *** One bench batch: predictions and references *)

Section Batch.
Context (abcd_idx : list Z).

(** [(labels != IGNORE_INDEX).nonzero()[0][0]] *)
Fixpoint first_non_ignore (l : list Z) : option nat :=
  match l with
  | [] => None
  | x :: l' => if Z.eqb x IGNORE_INDEX then option_map S (first_non_ignore l') else Some O
  end.

(** [torch.argmax] on a vector: the index of the first maximal value. *)
Fixpoint argmax_from (l : list Q) (i best : nat) (bv : Q) : nat :=
  match l with
  | [] => best
  | y :: l' => if Qlt_bool bv y then argmax_from l' (S i) i y else argmax_from l' (S i) best bv
  end.

Definition argmax (l : list Q) : option nat :=
  match l with
  | [] => None
  | x :: l' => Some (argmax_from l' 1 O x)
  end.

(** The prediction for one example: [logit] holds one row of vocabulary
    logits per position, [labels_i] is [batch["labels"][i]]. *)
Definition predict (labels_i : list Z) (logit : list (list Q)) : option Z :=
  match first_non_ignore labels_i with
  | None => None
  | Some label_non_zero_id =>
      match py_index logit (Z.of_nat label_non_zero_id - 1) with
      | None => None
      | Some row =>
          match omap (fun t => py_index row t) abcd_idx with
          | None => None
          | Some logit_abcd => option_map Z.of_nat (argmax logit_abcd)
          end
      end
  end.

(** [for i, logit in enumerate(logits): preds.append(...)] *)
Fixpoint batch_preds (batch_labels : list (list Z)) (logits : list (list (list Q)))
    : option (list Z) :=
  match logits with
  | [] => Some []
  | logit :: logits' =>
      match batch_labels with
      | [] => None
      | labels_i :: batch_labels' =>
          match predict labels_i logit, batch_preds batch_labels' logits' with
          | Some p, Some ps => Some (p :: ps)
          | _, _ => None
          end
      end
  end.

(** [.view(-1, 2)[:, 0]]: the first of each consecutive pair; an odd
    number of elements cannot be viewed as pairs (RuntimeError). *)
Fixpoint pair_firsts (l : list Z) : option (list Z) :=
  match l with
  | [] => Some []
  | [_] => None
  | a :: _ :: l' => option_map (cons a) (pair_firsts l')
  end.

Definition ref_of (label : Z) : Z :=
  if z_in label abcd_idx then
    match z_index label abcd_idx with Some i => Z.of_nat i | None => -1 end
  else -1.

(** [labels[labels != IGNORE_INDEX].view(-1, 2)[:, 0]] mapped to option
    indices; the mask flattens the batch row by row. *)
Definition batch_refs (batch_labels : list (list Z)) : option (list Z) :=
  let kept := filter (fun t => negb (Z.eqb t IGNORE_INDEX)) (List.concat batch_labels) in
  option_map (map ref_of) (pair_firsts kept).

(** The body of the loop over the bench data loader, for one batch with
    loss [loss], logits [logits] and labels [batch_labels] ([trainer.prediction_step]
    returns the batch's labels). *)
Definition bench_step (acc : list Z * list Z * Q)
    (batch : Q * list (list (list Q)) * list (list Z)) : option (list Z * list Z * Q) :=
  let '(preds, refs, loss_bench) := acc in
  let '(loss, logits, batch_labels) := batch in
  match batch_preds batch_labels logits, batch_refs batch_labels with
  | Some ps, Some rs => Some (preds ++ ps, refs ++ rs, (loss_bench + loss)%Q)
  | _, _ => None
  end.

Fixpoint bench_loop (acc : list Z * list Z * Q)
    (batches : list (Q * list (list (list Q)) * list (list Z))) : option (list Z * list Z * Q) :=
  match batches with
  | [] => Some acc
  | b :: bs => match bench_step acc b with Some acc' => bench_loop acc' bs | None => None end
  end.

End Batch.

(** *** Aggregation across ranks *)

(** [{"refs": [...], "preds": [...]}] *)
Record entry := { refs : list Z; preds : list Z }.

Definition empty_entry : entry := {| refs := []; preds := [] |}.

(** What one rank holds after its loop over the bench data loader. *)
Record rank_local := {
  bench_name : list string;  (** [bench_dataset["name"]] *)
  rank_preds : list Z;
  rank_refs : list Z;
  loss_bench : Q;
  len_data_loader : Z;
}.

(** The loop over a rank's data loader, from empty accumulators. *)
Definition run_rank (abcd_idx : list Z) (names : list string)
    (batches : list (Q * list (list (list Q)) * list (list Z))) : option rank_local :=
  match bench_loop abcd_idx ([], [], 0%Q) batches with
  | Some (ps, rs, l) =>
      Some {| bench_name := names; rank_preds := ps; rank_refs := rs; loss_bench := l;
              len_data_loader := Z.of_nat (List.length batches) |}
  | None => None
  end.

(** [set(bench_name)], iterated in one admissible order (first occurrence). *)
Definition py_set (l : list string) : list string :=
  fold_left (fun acc s => if existsb (String.eqb s) acc then acc else acc ++ [s]) l [].

(** [bench_names] of one rank. *)
Definition local_bench_names (rl : rank_local) : PyDict.dict entry :=
  let bench_names := map (fun s => (s, empty_entry)) (py_set (bench_name rl)) in
  fold_left
    (fun d spr =>
       let '(s, p, r) := spr in
       match PyDict.get s d with
       | Some e => PyDict.set s {| refs := refs e ++ [r]; preds := preds e ++ [p] |} d
       | None => d  (* unreachable: every name is a key *)
       end)
    (combine (combine (bench_name rl) (rank_preds rl)) (rank_refs rl))
    bench_names.

(** Modelled from the spec: [axolotl.utils.distributed.gather_scalar_from_all_ranks]
    (not in the sources); on the main process it returns the value of
    every rank, in rank order. *)
Definition gather_scalar_from_all_ranks {A} (per_rank : list A) : list A := per_rank.

(** Modelled from the spec: [axolotl.utils.distributed.broadcast_dict]
    (not in the sources); every rank receives the dict of the main
    process (rank 0). *)
Definition broadcast_dict {A} (per_rank : list A) : list A :=
  match per_rank with
  | [] => []
  | r0 :: rest => r0 :: map (fun _ => r0) rest
  end.

(** "Combine results from all GPUs" *)
Definition combine_step (comb : PyDict.dict entry) (nd : string * entry) : PyDict.dict entry :=
  let '(name, data) := nd in
  let comb := if PyDict.mem name comb then comb else PyDict.set name empty_entry comb in
  match PyDict.get name comb with
  | Some e => PyDict.set name {| refs := refs e ++ refs data; preds := preds e ++ preds data |} comb
  | None => comb  (* unreachable: [name] was just inserted *)
  end.

Definition combine_bench_names (gathered : list (PyDict.dict entry)) : PyDict.dict entry :=
  fold_left (fun comb bn => fold_left combine_step bn comb) gathered [].

(** [evaluate.load("accuracy").compute(references=..., predictions=...)["accuracy"]]:
    the fraction of equal pairs; NaN on empty inputs, ValueError on
    inputs of different lengths. *)
Definition accuracy (references predictions : list Z) : option num :=
  if Nat.eqb (List.length references) (List.length predictions) then
    match references with
    | [] => Some NaN
    | _ =>
        let correct := List.length (filter (fun rp => Z.eqb (fst rp) (snd rp))
                                           (combine references predictions)) in
        Some (Fin (inject_Z (Z.of_nat correct) / inject_Z (Z.of_nat (List.length references))))
    end
  else None.

(** Python's [sum] over floats. *)
Definition qsum (l : list Q) : Q := fold_left Qplus l 0%Q.

(** [np.mean] *)
Definition np_mean (l : list Q) : num :=
  match l with
  | [] => NaN
  | _ => Fin (qsum l / inject_Z (Z.of_nat (List.length l)))
  end.

Definition loss_key : string := (bench_split ++ "_bench_loss")%string.
Definition accuracy_key (name : string) : string :=
  (bench_split ++ "_bench_accuracy_" ++ name)%string.
Definition average_key : string := (bench_split ++ "_bench_average_accuracy")%string.
Definition total_key : string := (bench_split ++ "_bench_total_accuracy")%string.

(** [sum(loss_bench_ranks) / sum(len_data_loader_ranks)] *)
Definition bench_loss (loss_bench_ranks : list Q) (len_data_loader_ranks : list Z) : option Q :=
  let den := fold_left Z.add len_data_loader_ranks 0 in
  if Z.eqb den 0 then None else Some (qsum loss_bench_ranks / inject_Z den)%Q.

Record score_state := {
  results : PyDict.dict num;
  bench_scores : list Q;
  bench_refs : list Z;
  bench_preds : list Z;
}.

(** The loop over [combined_bench_names]; it walks the items, which is
    the loop over the keys with [combined_bench_names[bench_name]]. *)
Fixpoint score_loop (items : list (string * entry)) (st : score_state) : option score_state :=
  match items with
  | [] => Some st
  | (name, e) :: items' =>
      match accuracy (refs e) (preds e) with
      | None => None
      | Some bench_score =>
          let brefs := bench_refs st ++ refs e in
          let bpreds := bench_preds st ++ preds e in
          let st' :=
            match bench_score with
            | Fin q =>  (* not pd.isna(bench_score) *)
                {| results := PyDict.set (accuracy_key name) (Fin q) (results st);
                   bench_scores := bench_scores st ++ [q];
                   bench_refs := brefs; bench_preds := bpreds |}
            | NaN =>
                {| results := PyDict.set (accuracy_key name) (Fin 0) (results st);
                   bench_scores := bench_scores st ++ [0%Q];
                   bench_refs := brefs; bench_preds := bpreds |}
            end in
          score_loop items' st'
      end
  end.

(** The [else] branch of [on_evaluate], run by the main process: the
    [results] dict, or the exception raised. *)
Definition main_results (ranks : list rank_local) : py_exn + PyDict.dict num :=
  let gathered_bench_names := map local_bench_names ranks in
  let loss_bench_ranks := gather_scalar_from_all_ranks (map loss_bench ranks) in
  let len_data_loader_ranks := gather_scalar_from_all_ranks (map len_data_loader ranks) in
  match bench_loss loss_bench_ranks len_data_loader_ranks with
  | None => inl ZeroDivisionError
  | Some bl =>
      let results0 := [(loss_key, Fin bl)] in
      let combined := combine_bench_names gathered_bench_names in
      match score_loop combined {| results := results0; bench_scores := [];
                                   bench_refs := []; bench_preds := [] |} with
      | None => inl ValueError
      | Some st =>
          let res := PyDict.set average_key (np_mean (bench_scores st)) (results st) in
          match accuracy (bench_refs st) (bench_preds st) with
          | None => inl ValueError
          | Some tot => inr (PyDict.set total_key tot res)
          end
      end
  end.

(** [on_evaluate] over the whole world: [ranks] and [metrics] list each
    rank's data and [metrics] dict, rank 0 first.  The result is every
    rank's [metrics] dict after the callback. *)
Definition on_evaluate (ranks : list rank_local) (metrics : list (PyDict.dict num))
    : py_exn + list (PyDict.dict num) :=
  match main_results ranks with
  | inl e => inl e
  | inr res =>
      (* [results] is the computed dict on rank 0 and [{}] elsewhere *)
      let per_rank := res :: map (fun _ => []) (tl ranks) in
      let received := broadcast_dict per_rank in
      inr (map (fun mr => PyDict.update (fst mr) (snd mr)) (combine metrics received))
  end.

End BenchEval.

(** ** [GPUStatsCallback] *)

Module GPUStatsCallback.

Record gpu_stats := {
  logged : bool;
  (** the [global_step] of each [log_gpu_memory_usage] call *)
  memory_logs : list Z;
}.

Definition init : gpu_stats := {| logged := false; memory_logs := [] |}.

Definition on_step_end (state : TrainerState) (control : TrainerControl) (s : gpu_stats)
    : TrainerControl * gpu_stats :=
  if negb (logged s) && (1 <? global_step state) then
    (control, {| logged := true; memory_logs := memory_logs s ++ [global_step state] |})
  else (control, s).

(** The callback over a run's successive step ends. *)
Definition run (steps : list TrainerState) (control : TrainerControl) (s : gpu_stats) : gpu_stats :=
  fold_left (fun s st => snd (on_step_end st control s)) steps s.

End GPUStatsCallback.

(** ** Python [str] methods on strings of code points below 256 *)

Module PyStr.

(** [c.isspace()] for a code point below 256. *)
Definition is_space (c : ascii) : bool :=
  let n := nat_of_ascii c in
  ((9 <=? n)%nat && (n <=? 13)%nat) || ((28 <=? n)%nat && (n <=? 32)%nat)
  || (n =? 133)%nat || (n =? 160)%nat.

Fixpoint drop_spaces (l : list ascii) : list ascii :=
  match l with
  | c :: l' => if is_space c then drop_spaces l' else l
  | [] => []
  end.

(** [s.strip()] *)
Definition strip (l : list ascii) : list ascii := rev (drop_spaces (rev (drop_spaces l))).

(** [c.lower()] for a code point below 256: A-Z and the Latin-1 capitals
    U+00C0..U+00DE (but U+00D7) move up by 32. *)
Definition lower_char (c : ascii) : ascii :=
  let n := nat_of_ascii c in
  if ((65 <=? n)%nat && (n <=? 90)%nat)
     || ((192 <=? n)%nat && (n <=? 222)%nat && negb (n =? 215)%nat)
  then ascii_of_nat (n + 32) else c.

(** [s.lower()] *)
Definition lower (l : list ascii) : list ascii := map lower_char l.

(** [s.replace(a, b)] for one-character [a] and [b]. *)
Definition replace_char (a b : ascii) (l : list ascii) : list ascii :=
  map (fun c => if Ascii.eqb c a then b else c) l.

(** [s.split(sep)] for a one-character [sep]. *)
Fixpoint split (sep : ascii) (l : list ascii) : list (list ascii) :=
  match l with
  | [] => [[]]
  | c :: l' =>
      let parts := split sep l' in
      if Ascii.eqb c sep then [] :: parts
      else match parts with p :: ps => (c :: p) :: ps | [] => [[c]] end
  end.

(** [s.split(sep, maxsplit)] for a one-character [sep]. *)
Fixpoint split_max (sep : ascii) (l : list ascii) (maxsplit : nat) : list (list ascii) :=
  match l with
  | [] => [[]]
  | c :: l' =>
      if Ascii.eqb c sep then
        match maxsplit with
        | O => [l]
        | S m => [] :: split_max sep l' m
        end
      else
        match split_max sep l' maxsplit with
        | p :: ps => (c :: p) :: ps
        | [] => [[c]]
        end
  end.

(** [sep.join(parts)] for a one-character [sep]. *)
Fixpoint join (sep : ascii) (parts : list (list ascii)) : list ascii :=
  match parts with
  | [] => []
  | [p] => p
  | p :: ps => p ++ sep :: join sep ps
  end.

End PyStr.

(** ** Loading the benchmark dataset ([bench_eval_callback_factory]) *)

Module BenchSource.

(** [transform_bench_subject], on the [subject] field; returns the new
    [name] and [subject]. *)
Definition transform_bench_subject (subject : string) : string * string :=
  let parts := PyStr.split ":" (list_ascii_of_string subject) in
  let first_part :=
    PyStr.replace_char "-" "_" (PyStr.lower (PyStr.strip (hd [] parts))) in
  let second_part :=
    match parts with
    | _ :: p1 :: _ => PyStr.replace_char "-" "_" (PyStr.strip p1)
    | _ => list_ascii_of_string "all"
    end in
  (string_of_list_ascii first_part, string_of_list_ascii second_part).

(** A [load_dataset(path, data_files=...)] call. *)
Record load_call := {
  ds_path : string;
  data_files : list (string * string);
}.

Inductive bench_error :=
| UnhandledBenchDataset  (** the [ValueError] for an unknown [bench_dataset] *)
| MissingSplit.          (** [bench_dataset[bench_split]] on a split not loaded *)

Definition mmlu_evals : string := "openaccess-ai-collective/mmlu-evals".

Definition has_slash (s : string) : bool :=
  existsb (fun c => Ascii.eqb c "/") (list_ascii_of_string s).

(** The [if/elif] chain on [trainer.args.bench_dataset]. *)
Definition select_bench_dataset (bench_dataset : string) : bench_error + load_call :=
  if String.eqb bench_dataset "mmlu-zs" then
    inr {| ds_path := mmlu_evals;
           data_files := [("eval"%string, "zero_shot_mmlu_val.json"%string);
                          ("test"%string, "zero_shot_mmlu_test.json"%string)] |}
  else if String.eqb bench_dataset "mmlu" || String.eqb bench_dataset "mmlu-fs" then
    inr {| ds_path := mmlu_evals;
           data_files := [("eval"%string, "five_shot_mmlu_val.json"%string);
                          ("test"%string, "five_shot_mmlu_test.json"%string)] |}
  else if has_slash bench_dataset then
    let parts := PyStr.split_max "/" (list_ascii_of_string bench_dataset) 2 in
    let bench_ds_name := string_of_list_ascii (PyStr.join "/" (firstn 2 parts)) in
    let bench_ds_data_file := string_of_list_ascii (PyStr.join "/" (skipn 2 parts)) in
    inr {| ds_path := bench_ds_name; data_files := [("eval"%string, bench_ds_data_file)] |}
  else inl UnhandledBenchDataset.

(** [bench_dataset[trainer.args.bench_split]]: the data file of the split. *)
Definition bench_split_file (bench_dataset bench_split : string) : bench_error + (string * string) :=
  match select_bench_dataset bench_dataset with
  | inl e => inl e
  | inr call =>
      match PyDict.get bench_split (data_files call) with
      | Some f => inr (ds_path call, f)
      | None => inl MissingSplit
      end
  end.

End BenchSource.

(** ** [LogPredictionCallback] *)

Module LogPrediction.

(** [find_ranges] *)
Definition find_ranges (lst : list Z) : list (Z * Z) :=
  let '(ranges, start) :=
    fold_left
      (fun acc ix =>
         let '(ranges, start) := acc in
         let '(i, x) := ix in
         if Z.eqb x 0 then (ranges ++ [(start, i - 1)], i) else (ranges, start))
      (combine (map Z.of_nat (seq 1 (List.length lst - 1))) (tl lst))
      ([], 0) in
  ranges ++ [(start, Z.of_nat (List.length lst) - 1)].

(** The ranges of one example: [find_ranges] of its position ids, or the
    whole sequence without position ids; ranges with [start == end] are
    skipped. *)
Definition example_rows (input_len : nat) (pos_ids : option (list Z)) : list (Z * Z) :=
  let pos_ranges :=
    match pos_ids with
    | None => [(0, Z.of_nat input_len - 1)]
    | Some p => find_ranges p
    end in
  filter (fun r => negb (Z.eqb (fst r) (snd r))) pos_ranges.

(** A batch: each example's input length, and the batch's
    [position_ids] when it has them.  Its table rows are its kept ranges
    (the decoded texts of a row are functions of its range). *)
Definition batch := (list nat * option (list (list Z)))%type.

Definition batch_rows (b : batch) : list (Z * Z) :=
  match snd b with
  | None => flat_map (fun n => example_rows n None) (fst b)
  | Some ps => flat_map (fun np => example_rows (fst np) (Some (snd np))) (combine (fst b) ps)
  end.

(** The exception raised when a batch keeps no range: [prompt_texts] is
    then empty, and the tokenizer call and [model.generate] on it fail. *)
Inductive table_error := EmptyPrompts.

(** [log_table_from_dataloader]: the table's rows [(row_index, range)],
    or the exception raised. *)
Fixpoint table_loop (eval_table_size : Z) (batches : list batch) (row_index : Z)
    (table : list (Z * (Z * Z))) : table_error + list (Z * (Z * Z)) :=
  match batches with
  | [] => inr table
  | b :: bs =>
      if row_index >? eval_table_size then inr table
      else
        match batch_rows b with
        | [] => inl EmptyPrompts
        | rows =>
            let '(table', row_index') :=
              fold_left (fun acc r => let '(t, ri) := acc in (t ++ [(ri, r)], ri + 1))
                        rows (table, row_index) in
            table_loop eval_table_size bs row_index' table'
        end
  end.

Definition log_table_from_dataloader (eval_table_size : Z) (batches : list batch)
    : table_error + list (Z * (Z * Z)) :=
  table_loop eval_table_size batches 0 [].

(** [on_evaluate]: the table logged to wandb ([None] when none is), or the
    exception raised. *)
Definition on_evaluate (eval_table_size : Z) (is_main_process : bool) (batches : list batch)
    : table_error + option (list (Z * (Z * Z))) :=
  if eval_table_size <=? 0 then inr None
  else if is_main_process then
    match log_table_from_dataloader eval_table_size batches with
    | inl e => inl e
    | inr table => inr (Some table)
    end
  else inr None.

End LogPrediction.

(** ** [RunPodCallback.on_log] and [RunPodCallback.on_evaluate] *)

Module RunPodEvents.
Import RunPodCallback.

Section Events.
Context {V : Type}.


(** [on_evaluate] at wall time [now]. *)
Definition on_evaluate (now : Q) (s : @runpod (logs_buckets V)) : @runpod (logs_buckets V) :=
  {| last_logged_step := last_logged_step s; wandb_run_url := wandb_run_url s;
     job_id := job_id s; total_tracked_steps := total_tracked_steps s;
     current_tracked_steps := current_tracked_steps s;
     training_start_time := training_start_time s;
     total_eval_time := (total_eval_time s + (now - last_log_time s))%Q;
     last_log_time := last_log_time s; metrics := metrics s; sent := sent s |}.

End Events.
End RunPodEvents.

(** ** Concrete inputs *)

Module Samples.

(** A character-level tokenizer: one token per character, its code. *)
Definition char_tok (s : string) : list Z :=
  map (fun a => Z.of_nat (nat_of_ascii a)) (list_ascii_of_string s).

(** The ids of "A" .. "G" under [char_tok]. *)
Definition char_abcd : list Z := [65; 66; 67; 68; 69; 70; 71].

Definition mmlu_example : BenchEval.bench_example :=
  {| BenchEval.ex_input := "Q: 2+2? A) 4 B) 5";
     BenchEval.ex_output := "A";
     BenchEval.ex_subject := "all";
     BenchEval.ex_name := "math" |}.

Definition open_example : BenchEval.bench_example :=
  {| BenchEval.ex_input := "Name a letter";
     BenchEval.ex_output := "xy";
     BenchEval.ex_subject := "all";
     BenchEval.ex_name := "misc" |}.

(** Two ranks of a bench evaluation: both see the whole dataset's
    names, each holds the predictions of its own batches. *)
Definition rank0 : BenchEval.rank_local :=
  {| BenchEval.bench_name := ["math"; "law"; "math"]%string;
     BenchEval.rank_preds := [0; 1; 2]; BenchEval.rank_refs := [0; 1; 0];
     BenchEval.loss_bench := 3 # 2; BenchEval.len_data_loader := 2 |}.

Definition rank1 : BenchEval.rank_local :=
  {| BenchEval.bench_name := ["math"; "law"; "math"]%string;
     BenchEval.rank_preds := [0]; BenchEval.rank_refs := [1];
     BenchEval.loss_bench := 1; BenchEval.len_data_loader := 1 |}.

End Samples.

(** ** The per-category score as the claims read it *)

(** A category's accuracy, or [0.0] when the accuracy is NaN. *)
Definition category_score (e : BenchEval.entry) : Q :=
  match BenchEval.accuracy (BenchEval.refs e) (BenchEval.preds e) with
  | Some (Fin q) => q
  | _ => 0%Q
  end.

(** ** Views of the callbacks' data used by the statements below *)

Module LogPredictionViews.
Import LogPrediction.

(** The loop body of [find_ranges]. *)
Definition find_ranges_step (acc : list (Z * Z) * Z) (ix : Z * Z) : list (Z * Z) * Z :=
  let '(ranges, start) := acc in
  let '(i, x) := ix in
  if Z.eqb x 0 then (ranges ++ [(start, i - 1)], i) else (ranges, start).

(** The positions [i >= 1] with [lst[i] == 0]. *)
Definition zero_positions (lst : list Z) : list nat :=
  filter (fun i => Z.eqb (nth i lst 1) 0) (seq 1 (List.length lst - 1)).

(** The bounds of consecutive sub-sequences of lengths [lens] from [start]. *)
Fixpoint segments (start : Z) (lens : list nat) : list (Z * Z) :=
  match lens with
  | [] => []
  | n :: ns => (start, start + Z.of_nat n - 1) :: segments (start + Z.of_nat n) ns
  end.

(** The position ids of sequences of lengths [lens] packed together. *)
Definition packed_position_ids (lens : list nat) : list Z :=
  flat_map (fun n => map Z.of_nat (seq 0 n)) lens.

(** Table rows numbered from [ri]. *)
Fixpoint enum_from (ri : Z) (rows : list (Z * Z)) : list (Z * (Z * Z)) :=
  match rows with
  | [] => []
  | r :: rs => (ri, r) :: enum_from (ri + 1) rs
  end.

End LogPredictionViews.

Module BenchViews.
Import BenchEval PyDict.

(** [labels != IGNORE_INDEX] on one label. *)
Definition non_ignore (t : Z) : bool := negb (Z.eqb t IGNORE_INDEX).

(** [d.get(name, {"refs": [], "preds": []})] *)
Definition entry_of (name : string) (d : dict entry) : entry :=
  match get name d with Some e => e | None => empty_entry end.

Definition entry_app (e1 e2 : entry) : entry :=
  {| refs := refs e1 ++ refs e2; preds := preds e1 ++ preds e2 |}.

(** The [(name, pred, ref)] triples a rank walks whose name is [s]. *)
Definition named_triples (s : string) (rl : rank_local) : list (string * Z * Z) :=
  filter (fun t => String.eqb (fst (fst t)) s)
         (combine (combine (bench_name rl) (rank_preds rl)) (rank_refs rl)).

Definition triples_entry (ts : list (string * Z * Z)) : entry :=
  {| refs := map snd ts; preds := map (fun t => snd (fst t)) ts |}.

(** The entries under [s] of several dicts, one after the other. *)
Definition concat_entries (s : string) (gathered : list (dict entry)) : entry :=
  {| refs := flat_map (fun d => refs (entry_of s d)) gathered;
     preds := flat_map (fun d => preds (entry_of s d)) gathered |}.

End BenchViews.

Module RunPodViews.
Import RunPodCallback RunPodEvents.


End RunPodViews.

(** * Proofs *)

(** ** Python dicts *)

Module PyDictFacts.
Import PyDict.

Section Facts.
Context {V : Type}.
Implicit Types (d : dict V) (k : string) (v : V).

Lemma get_set_eq d k v : get k (set k v d) = Some v.
Proof.
  induction d as [|[k' v'] d IH]; simpl.
  - destruct (string_dec k k); congruence.
  - destruct (string_dec k k') as [->|Hne]; simpl.
    + destruct (string_dec k' k'); congruence.
    + destruct (string_dec k k'); [contradiction|exact IH].
Qed.

Lemma get_set_ne d k k' v : k <> k' -> get k (set k' v d) = get k d.
Proof.
  intros Hne. induction d as [|[k0 v0] d IH]; simpl.
  - destruct (string_dec k k'); [contradiction|reflexivity].
  - destruct (string_dec k' k0) as [->|Hne0]; simpl.
    + destruct (string_dec k k0); [contradiction|reflexivity].
    + destruct (string_dec k k0); [reflexivity|exact IH].
Qed.

Lemma keys_set d k v :
  map fst (set k v d) = if mem k d then map fst d else map fst d ++ [k].
Proof.
  unfold mem. induction d as [|[k0 v0] d IH]; simpl.
  - destruct (string_dec k k); [reflexivity|contradiction].
  - destruct (string_dec k k0) as [->|Hne]; simpl; [reflexivity|].
    rewrite IH. destruct (get k d); reflexivity.
Qed.

Lemma get_none_not_in d k : get k d = None <-> ~ In k (map fst d).
Proof.
  induction d as [|[k0 v0] d IH]; simpl.
  - tauto.
  - destruct (string_dec k k0) as [->|Hne].
    + split; [discriminate|]. intros H; exfalso; apply H; left; reflexivity.
    + rewrite IH. split; [intros H [H'|H']; [congruence|tauto] | tauto].
Qed.

Lemma set_nodup d k v : NoDup (map fst d) -> NoDup (map fst (set k v d)).
Proof.
  intros Hd. rewrite keys_set. unfold mem.
  destruct (get k d) eqn:Hg; [exact Hd|].
  apply get_none_not_in in Hg.
  apply NoDup_app; auto using NoDup_cons, NoDup_nil.
  intros x Hx [<-|[]]. contradiction.
Qed.

Lemma set_fresh d k v : ~ In k (map fst d) -> set k v d = d ++ [(k, v)].
Proof.
  induction d as [|[k0 v0] d IH]; simpl; intros Hn; [reflexivity|].
  destruct (string_dec k k0) as [->|Hne].
  - exfalso; apply Hn; left; reflexivity.
  - rewrite IH; [reflexivity|tauto].
Qed.

Lemma get_in d k v : get k d = Some v -> In (k, v) d.
Proof.
  induction d as [|[k0 v0] d IH]; simpl; [discriminate|].
  destruct (string_dec k k0) as [->|]; [intros [= ->]; left; reflexivity|].
  intros H; right; auto.
Qed.

Lemma in_get d k v : NoDup (map fst d) -> In (k, v) d -> get k d = Some v.
Proof.
  induction d as [|[k0 v0] d IH]; simpl; [tauto|].
  intros Hnd Hin. inversion Hnd as [|? ? Hn Hnd']; subst.
  destruct (string_dec k k0) as [->|Hne].
  - destruct Hin as [[= <-]|Hin]; [reflexivity|].
    exfalso; apply Hn. apply (in_map fst) in Hin; exact Hin.
  - destruct Hin as [[= -> ->]|Hin]; [contradiction|auto].
Qed.

(** Merging [src] into [dst] key by key. *)
Lemma get_update (dst src : dict V) k :
  NoDup (map fst src) ->
  get k (update dst src) = match get k src with Some v => Some v | None => get k dst end.
Proof.
  unfold update. revert dst.
  induction src as [|[k0 v0] src IH]; intros dst Hnd; simpl; [reflexivity|].
  inversion Hnd as [|? ? Hn Hnd']; subst.
  rewrite (IH _ Hnd').
  destruct (string_dec k k0) as [->|Hne].
  - assert (get k0 src = None) as -> by (apply get_none_not_in; exact Hn).
    apply get_set_eq.
  - destruct (get k src); [reflexivity|]. apply get_set_ne; exact Hne.
Qed.

End Facts.
End PyDictFacts.

(** ** Strings *)

Lemma startswith_app p s : startswith p s = true -> s = (p ++ str_drop (String.length p) s)%string.
Proof.
  revert s. induction p as [|a p IH]; intros s H; [reflexivity|].
  destruct s as [|b s]; simpl in H; [discriminate|].
  apply andb_prop in H as [Hab H]. apply Ascii.eqb_eq in Hab as ->.
  simpl. f_equal. apply IH; exact H.
Qed.

Lemma append_cancel_l p a b : (p ++ a)%string = (p ++ b)%string -> a = b.
Proof.
  induction p as [|c p IH]; simpl; [auto|]. intros [= H]; auto.
Qed.

(** ** Numbers *)

Lemma Qlt_bool_iff a b : Qlt_bool a b = true <-> (a < b)%Q.
Proof.
  unfold Qlt_bool. rewrite negb_true_iff. split.
  - intros H. apply Qnot_le_lt. intros Hle. apply Qle_bool_iff in Hle. congruence.
  - intros H. destruct (Qle_bool b a) eqn:E; [|reflexivity].
    apply Qle_bool_iff in E. exfalso. apply (Qlt_not_le a b); assumption.
Qed.

(** [a % b == 0] holds exactly when [a] is an integer multiple of [b]. *)
Lemma pymod_zero_iff a b :
  ~ (b == 0)%Q ->
  exists r, pymod a b = Some r /\ (Qeq_bool r 0 = true <-> exists k : Z, (a == inject_Z k * b)%Q).
Proof.
  intros Hb. unfold pymod.
  destruct (Qeq_bool b 0) eqn:E; [apply Qeq_bool_iff in E; contradiction|].
  eexists; split; [reflexivity|]. rewrite Qeq_bool_iff. split.
  - intros H. exists (Qfloor (a / b)).
    setoid_replace a with (a - b * inject_Z (Qfloor (a / b)) + b * inject_Z (Qfloor (a / b)))%Q
      at 1 by ring.
    rewrite H. ring.
  - intros [k Hk].
    assert (Hq : (a / b == inject_Z k)%Q) by (rewrite Hk; field; exact Hb).
    rewrite (Qfloor_comp _ _ Hq), Qfloor_Z, Hk. ring.
Qed.

(** ** [rewrite_logs] *)

Section RewriteLogsFacts.
Context {V : Type}.

Definition is_eval_key (kv : string * V) : bool := startswith eval_prefix (fst kv).
Definition is_test_key (kv : string * V) : bool :=
  negb (startswith eval_prefix (fst kv)) && startswith test_prefix (fst kv).
Definition is_train_key (kv : string * V) : bool :=
  negb (startswith eval_prefix (fst kv)) && negb (startswith test_prefix (fst kv)).

Lemma stripped_fresh (p : string) (d : list (string * V)) (k : string) :
  ~ In k (map fst d) -> startswith p k = true ->
  ~ In (str_drop (String.length p) k)
       (map fst (map (fun kv => (str_drop (String.length p) (fst kv), snd kv))
                     (filter (fun kv => startswith p (fst kv)) d))).
Proof.
  intros Hn Hk Hin. rewrite map_map in Hin. simpl in Hin.
  apply in_map_iff in Hin as [[k' v'] [Heq Hin]]. simpl in Heq.
  apply filter_In in Hin as [Hin Hk']. simpl in Hk'.
  apply Hn. apply startswith_app in Hk, Hk'.
  rewrite Hk, <- Heq, <- Hk'. apply (in_map fst) in Hin. exact Hin.
Qed.

Lemma rewrite_logs_lists (d : PyDict.dict V) :
  NoDup (map fst d) ->
  rewrite_logs d =
    {| train := filter is_train_key d;
       eval := map (fun kv => (str_drop (String.length eval_prefix) (fst kv), snd kv))
                   (filter is_eval_key d);
       test := map (fun kv => (str_drop (String.length test_prefix) (fst kv), snd kv))
                   (filter is_test_key d) |}.
Proof.
  induction d as [|[k v] d IH] using rev_ind; intros Hnd; [reflexivity|].
  rewrite map_app in Hnd. simpl in Hnd.
  pose proof (NoDup_remove_2 _ _ _ Hnd) as Hk. rewrite app_nil_r in Hk.
  pose proof (NoDup_remove_1 _ _ _ Hnd) as Hnd'. rewrite app_nil_r in Hnd'.
  unfold rewrite_logs in *. rewrite fold_left_app, IH by exact Hnd'.
  cbn [fold_left]. unfold rewrite_logs_step.
  rewrite !filter_app, !map_app. cbn [filter map].
  unfold is_train_key, is_eval_key, is_test_key. cbn [fst snd].
  destruct (startswith eval_prefix k) eqn:He; cbn [negb andb train eval test map fst snd].
  - rewrite PyDictFacts.set_fresh; [rewrite ?app_nil_r; reflexivity|].
    apply (stripped_fresh eval_prefix d k Hk He).
  - destruct (startswith test_prefix k) eqn:Ht; cbn [negb andb train eval test map fst snd].
    + rewrite PyDictFacts.set_fresh; [rewrite ?app_nil_r; reflexivity|].
      intros Hin. apply (stripped_fresh test_prefix d k Hk Ht).
      rewrite map_map in *. simpl in *.
      apply in_map_iff in Hin as [kv [Heq Hin]]. apply in_map_iff.
      exists kv; split; [exact Heq|].
      apply filter_In in Hin as [Hin Hkv]. apply filter_In; split; [exact Hin|].
      unfold is_test_key in Hkv. apply andb_prop in Hkv as [_ Hkv]; exact Hkv.
    + rewrite PyDictFacts.set_fresh; [rewrite ?app_nil_r; reflexivity|].
      intros Hin. apply Hk.
      apply in_map_iff in Hin as [kv [Heq Hin]]. apply filter_In in Hin as [Hin _].
      rewrite <- Heq. apply in_map; exact Hin.
Qed.

End RewriteLogsFacts.

(** * Claims *)

(** ** [rewrite_logs] *)

(** C10: for every dict (its keys pairwise distinct), [rewrite_logs]
    splits the entries into the buckets ['train'], ['eval'] and ['test']:
    keys starting with [eval_] go to ['eval'] without the prefix, keys
    starting with [test_] (and not [eval_]) go to ['test'] without the
    prefix, all others go to ['train'] unchanged; values are unchanged and
    the three buckets together have as many entries as the input. *)
Theorem rewrite_logs_partition {V : Type} (d : PyDict.dict V) :
  NoDup (map fst d) ->
  train (rewrite_logs d) =
    filter (fun kv => negb (startswith "eval_" (fst kv)) && negb (startswith "test_" (fst kv))) d /\
  eval (rewrite_logs d) =
    map (fun kv => (str_drop 5 (fst kv), snd kv))
        (filter (fun kv => startswith "eval_" (fst kv)) d) /\
  test (rewrite_logs d) =
    map (fun kv => (str_drop 5 (fst kv), snd kv))
        (filter (fun kv => negb (startswith "eval_" (fst kv)) && startswith "test_" (fst kv)) d) /\
  (List.length (train (rewrite_logs d)) + List.length (eval (rewrite_logs d))
   + List.length (test (rewrite_logs d)) = List.length d)%nat.
Proof.
  intros Hnd. rewrite (rewrite_logs_lists d Hnd). cbn [train eval test].
  split; [reflexivity|]. split; [reflexivity|]. split; [reflexivity|].
  rewrite !length_map.
  induction d as [|[k v] d IH]; [reflexivity|].
  inversion Hnd; subst. cbn [filter List.length].
  unfold is_train_key, is_eval_key, is_test_key in *. cbn [fst] in *.
  specialize (IH ltac:(assumption)).
  destruct (startswith eval_prefix k), (startswith test_prefix k); cbn [negb andb List.length]; lia.
Qed.

Lemma rewrite_logs_partition_witness :
  NoDup (map fst [("eval_loss"%string, 1%Z); ("test_loss"%string, 2%Z); ("loss"%string, 3%Z)]) /\
  test (rewrite_logs [("eval_loss"%string, 1%Z); ("test_loss"%string, 2%Z); ("loss"%string, 3%Z)])
    = [("loss"%string, 2%Z)].
Proof.
  assert (H : NoDup (map fst [("eval_loss"%string, 1%Z); ("test_loss"%string, 2%Z); ("loss"%string, 3%Z)])).
  { cbn. repeat constructor; cbn; intuition discriminate. }
  split; [exact H|].
  destruct (rewrite_logs_partition _ H) as [_ [_ [Ht _]]]. rewrite Ht. reflexivity.
Defined.

(** ** [EvalFirstStepCallback] *)

(** C6: [on_step_end] sets [should_evaluate] when the evaluation strategy
    is STEPS, [eval_steps < 1.0] and [global_step == 1], leaving the other
    fields alone; otherwise it returns the control object unchanged. *)
Theorem eval_first_step_on_step_end (args : TrainingArguments) (state : TrainerState)
    (control : TrainerControl) :
  (evaluation_strategy args = STEPS /\ (eval_steps args < 1)%Q /\ global_step state = 1 ->
   should_evaluate (EvalFirstStepCallback.on_step_end args state control) = true /\
   should_training_stop (EvalFirstStepCallback.on_step_end args state control)
     = should_training_stop control /\
   should_epoch_stop (EvalFirstStepCallback.on_step_end args state control)
     = should_epoch_stop control /\
   should_save (EvalFirstStepCallback.on_step_end args state control) = should_save control /\
   should_log (EvalFirstStepCallback.on_step_end args state control) = should_log control) /\
  (~ (evaluation_strategy args = STEPS /\ (eval_steps args < 1)%Q /\ global_step state = 1) ->
   EvalFirstStepCallback.on_step_end args state control = control).
Proof.
  unfold EvalFirstStepCallback.on_step_end. split.
  - intros [Hs [Hq Hg]]. rewrite Hs, Hg. apply Qlt_bool_iff in Hq. rewrite Hq.
    cbn. repeat split.
  - intros Hn.
    destruct (strategy_eqb (evaluation_strategy args) STEPS) eqn:Hs; [|reflexivity].
    destruct (Qlt_bool (eval_steps args) 1) eqn:Hq; [|reflexivity].
    destruct (global_step state =? 1) eqn:Hg; [|reflexivity].
    exfalso. apply Hn. apply Qlt_bool_iff in Hq. apply Z.eqb_eq in Hg.
    destruct (evaluation_strategy args); try discriminate. auto.
Qed.

Lemma eval_first_step_on_step_end_witness :
  should_evaluate
    (EvalFirstStepCallback.on_step_end
       {| evaluation_strategy := STEPS; eval_steps := 1 # 2; save_strategy := NO;
          save_steps := 500; logging_steps := 10; output_dir := "out" |}
       {| global_step := 1; max_steps := 100; is_world_process_zero := true |}
       {| should_training_stop := false; should_epoch_stop := false; should_save := false;
          should_evaluate := false; should_log := false |}) = true.
Proof.
  apply (proj1 (eval_first_step_on_step_end _ _ _)).
  split; [reflexivity|]. split; [reflexivity|reflexivity].
Defined.

(** ** [SaveBetterTransformerModelCallback] *)

Lemma save_due_iff args state :
  SaveBetterTransformerModelCallback.save_due args state = true <->
  save_strategy args = STEPS /\ (0 < save_steps args)%Q /\
  exists k : Z, (inject_Z (global_step state) == inject_Z k * save_steps args)%Q.
Proof.
  unfold SaveBetterTransformerModelCallback.save_due.
  destruct (Qlt_bool 0 (save_steps args)) eqn:Hp.
  - apply Qlt_bool_iff in Hp.
    assert (Hnz : ~ (save_steps args == 0)%Q) by (intros E; rewrite E in Hp; discriminate).
    destruct (pymod_zero_iff (inject_Z (global_step state)) _ Hnz) as [r [-> Hr]].
    rewrite <- Hr. destruct (save_strategy args); cbn; intuition congruence.
  - rewrite andb_false_r. cbn. split; [discriminate|].
    intros [_ [Hq _]]. apply Qlt_bool_iff in Hq. congruence.
Qed.

(** C9: after [on_step_end] [should_save] is always false; a save of the
    unwrapped model to [checkpoint-<global_step>] happens exactly when one
    was due (strategy STEPS, [save_steps > 0] and [global_step] a multiple
    of [save_steps]) or already requested on entry; the other control
    fields are left alone. *)
Theorem save_bt_never_leaves_save_pending (args : TrainingArguments) (state : TrainerState)
    (control : TrainerControl) :
  should_save (fst (SaveBetterTransformerModelCallback.on_step_end args state control)) = false /\
  snd (SaveBetterTransformerModelCallback.on_step_end args state control) =
    (if SaveBetterTransformerModelCallback.save_due args state || should_save control
     then [(output_dir args, global_step state)] else []) /\
  (SaveBetterTransformerModelCallback.save_due args state = true <->
   save_strategy args = STEPS /\ (0 < save_steps args)%Q /\
   exists k : Z, (inject_Z (global_step state) == inject_Z k * save_steps args)%Q) /\
  should_evaluate (fst (SaveBetterTransformerModelCallback.on_step_end args state control))
    = should_evaluate control /\
  should_log (fst (SaveBetterTransformerModelCallback.on_step_end args state control))
    = should_log control /\
  should_training_stop (fst (SaveBetterTransformerModelCallback.on_step_end args state control))
    = should_training_stop control /\
  should_epoch_stop (fst (SaveBetterTransformerModelCallback.on_step_end args state control))
    = should_epoch_stop control.
Proof.
  refine (conj _ (conj _ (conj (save_due_iff args state) _)));
    unfold SaveBetterTransformerModelCallback.on_step_end;
    destruct (SaveBetterTransformerModelCallback.save_due args state);
    destruct (should_save control) eqn:Hs; cbn; rewrite ?Hs; repeat split; exact Hs.
Qed.

(** ** [SaveAxolotlConfigtoWandBCallback] *)

Module SaveConfigFacts.
Import SaveAxolotlConfigtoWandBCallback.

(** C8: only the main process attempts the upload; a FileNotFoundError
    or ConnectionError raised by it is caught, a warning is logged and the
    control object is returned unchanged; only another exception
    propagates; and whenever the method returns, it returns [control]. *)
Theorem save_config_on_train_begin (is_main : bool) (upload : option py_exn)
    (control : TrainerControl) :
  upload_attempted (on_train_begin is_main upload control) = is_main /\
  (forall err, upload = Some err -> caught err = true ->
     returned (on_train_begin is_main upload control) = inr control /\
     logged (on_train_begin is_main upload control) =
       (if is_main
        then [Warning ("Error while saving Axolotl config to WandB: " ++ exn_str err)%string]
        else [])) /\
  (forall err, returned (on_train_begin is_main upload control) = inl err ->
     is_main = true /\ upload = Some err /\ caught err = false) /\
  (forall r, returned (on_train_begin is_main upload control) = inr r -> r = control).
Proof.
  unfold on_train_begin.
  destruct is_main; [|cbn; repeat split; intros; congruence].
  destruct upload as [e|]; cbn.
  - destruct (caught e) eqn:Hc; cbn.
    + repeat split; intros; congruence.
    + repeat split; intros; congruence.
  - repeat split; intros; congruence.
Qed.

Lemma save_config_on_train_begin_witness :
  returned (on_train_begin true (Some (ConnectionError "connection reset"))
              {| should_training_stop := false; should_epoch_stop := false; should_save := false;
                 should_evaluate := false; should_log := true |})
  = inr {| should_training_stop := false; should_epoch_stop := false; should_save := false;
           should_evaluate := false; should_log := true |}.
Proof.
  apply (proj1 (proj1 (proj2 (save_config_on_train_begin _ _ _))
                       (ConnectionError "connection reset") eq_refl eq_refl)).
Defined.

End SaveConfigFacts.

(** ** [RunPodCallback] *)

Module RunPodFacts.
Import RunPodCallback.

(** X17: on a process where [on_train_begin] recorded the total number
    of steps (the world-process-zero), with positive [logging_steps],
    [on_step_end] counts the step and sends one update
    exactly when [global_step] is a multiple of [logging_steps]; the update
    carries the step, the total, the elapsed time (wall time since the start
    minus the accumulated evaluation time), the remaining time
    [elapsed / current_tracked_steps * (total - current_tracked_steps)],
    the last metrics and the wandb URL. *)
Theorem runpod_on_step_end_main {Metrics : Type}
    (json_dumps : progress_content -> string) (args : TrainingArguments)
    (state : TrainerState) (now : Q) (s : runpod) (total : Z) :
  total_tracked_steps s = Some total ->
  (0 < logging_steps args)%Q ->
  let r := on_step_end (Metrics := Metrics) json_dumps args state now s in
  let elapsed := (now - training_start_time s - total_eval_time s)%Q in
  let tracked := current_tracked_steps s + 1 in
  fst r = None /\
  current_tracked_steps (snd r) = tracked /\
  ((exists k : Z, (inject_Z (global_step state) == inject_Z k * logging_steps args)%Q) ->
   sent (snd r) =
     sent s ++ [json_dumps {| step := global_step state; total_steps := total;
                               elapsed := elapsed;
                               remaining := (elapsed / inject_Z tracked * inject_Z (total - tracked))%Q;
                               metrics_sent := metrics s; wandb := wandb_run_url s |}]) /\
  (~ (exists k : Z, (inject_Z (global_step state) == inject_Z k * logging_steps args)%Q) ->
   sent (snd r) = sent s).
Proof.
  intros Ht Hpos r elapsed tracked. subst r.
  assert (Hnz : ~ (logging_steps args == 0)%Q)
    by (intros E; rewrite E in Hpos; discriminate).
  destruct (pymod_zero_iff (inject_Z (global_step state)) _ Hnz) as [m [Hm Hiff]].
  unfold on_step_end. rewrite Hm. cbn [total_tracked_steps with_tracked_steps].
  rewrite Ht.
  destruct (Qeq_bool m 0) eqn:Hz; cbn.
  - split; [reflexivity|split; [reflexivity|split]].
    + intros _. reflexivity.
    + intros Hn. exfalso. apply Hn, Hiff. reflexivity.
  - split; [reflexivity|split; [reflexivity|split]].
    + intros Hk. apply Hiff in Hk. congruence.
    + intros _. reflexivity.
Qed.

Lemma runpod_on_step_end_main_witness :
  sent (snd (on_step_end (Metrics := unit) (fun _ => "update"%string)
          {| evaluation_strategy := NO; eval_steps := 0; save_strategy := NO;
             save_steps := 500; logging_steps := 10; output_dir := "out" |}
          {| global_step := 20; max_steps := 100; is_world_process_zero := true |} 50
          (on_train_begin None {| global_step := 0; max_steps := 100; is_world_process_zero := true |}
             None 0 (init tt "job" 0))))
  = ["update"%string].
Proof.
  destruct (runpod_on_step_end_main (Metrics := unit) (fun _ => "update"%string)
              {| evaluation_strategy := NO; eval_steps := 0; save_strategy := NO;
                 save_steps := 500; logging_steps := 10; output_dir := "out" |}
              {| global_step := 20; max_steps := 100; is_world_process_zero := true |} 50
              (on_train_begin None {| global_step := 0; max_steps := 100; is_world_process_zero := true |}
                 None 0 (init tt "job" 0)) 100 eq_refl eq_refl) as [_ [_ [Hsend _]]].
  rewrite Hsend by (exists 2; reflexivity). reflexivity.
Defined.

Lemma on_train_begin_non_zero_total {Metrics : Type}
    (wandb_url : option string) (state : TrainerState) (total_kw : option Z) (now : Q)
    (s : @runpod Metrics) :
  is_world_process_zero state = false ->
  total_tracked_steps (on_train_begin wandb_url state total_kw now s) = total_tracked_steps s.
Proof. intros H. unfold on_train_begin. rewrite H. reflexivity. Qed.

(** C7: while [total_tracked_steps] is unset, which it stays on every
    process other than the world-process-zero since [on_step_end], unlike
    [on_log] and [on_train_begin], has no [is_world_process_zero] guard,
    [on_step_end] at a logging step raises a TypeError ([None - int]) and
    sends no update. *)
Theorem runpod_non_main_logging_step_raises {Metrics : Type}
    (json_dumps : progress_content -> string) (args : TrainingArguments)
    (state : TrainerState) (now : Q) (s : @runpod Metrics) :
  total_tracked_steps s = None ->
  (0 < logging_steps args)%Q ->
  (exists k : Z, (inject_Z (global_step state) == inject_Z k * logging_steps args)%Q) ->
  let r := on_step_end json_dumps args state now s in
  fst r = Some TypeError /\ sent (snd r) = sent s.
Proof.
  intros Ht Hpos Hk r. subst r.
  assert (Hnz : ~ (logging_steps args == 0)%Q)
    by (intros E; rewrite E in Hpos; discriminate).
  destruct (pymod_zero_iff (inject_Z (global_step state)) _ Hnz) as [m [Hm Hiff]].
  unfold on_step_end. rewrite Hm, (proj2 Hiff Hk). cbn [total_tracked_steps with_tracked_steps].
  rewrite Ht. split; reflexivity.
Qed.

Lemma runpod_non_main_logging_step_raises_witness :
  let s := on_train_begin None {| global_step := 0; max_steps := 100; is_world_process_zero := false |}
             None 0 (init tt "job" 0) in
  let r := on_step_end (Metrics := unit) (fun _ => "update"%string)
             {| evaluation_strategy := NO; eval_steps := 0; save_strategy := NO;
                save_steps := 500; logging_steps := 10; output_dir := "out" |}
             {| global_step := 10; max_steps := 100; is_world_process_zero := false |} 30 s in
  fst r = Some TypeError /\ sent (snd r) = [].
Proof.
  apply (runpod_non_main_logging_step_raises (Metrics := unit) (fun _ => "update"%string)).
  - rewrite on_train_begin_non_zero_total by reflexivity. reflexivity.
  - reflexivity.
  - exists 1. reflexivity.
Defined.

End RunPodFacts.

(** ** [tokenize_evals] and the filter *)

Module TokenizeFacts.
Import BenchEval.

Lemma py_index_minus_two {A} (l : list A) :
  (2 <= List.length l)%nat -> py_index l (-2) = nth_error l (List.length l - 2).
Proof.
  intros H. unfold py_index.
  replace (0 <=? -2) with false by reflexivity.
  replace (- Z.of_nat (List.length l) <=? -2) with true by (symmetry; apply Z.leb_le; lia).
  f_equal. lia.
Qed.

Section Tokenize.
Context (tok : string -> list Z) (bos_token eos_token : string) (abcd_idx : list Z).
Hypothesis tok_nonempty : forall s, s <> ""%string -> tok s <> [].
Hypothesis bos_nonempty : bos_token <> ""%string.
Hypothesis eos_nonempty : eos_token <> ""%string.

Lemma tokenize_nonempty s : s <> ""%string -> (1 <= List.length (tokenize tok s))%nat.
Proof.
  intros Hs. unfold tokenize. apply tok_nonempty in Hs.
  destruct (tok s); [contradiction|]. cbn. lia.
Qed.

Lemma app_nonempty_l a b : a <> ""%string -> (a ++ b)%string <> ""%string.
Proof. destruct a; [contradiction|discriminate]. Qed.

Lemma app_nonempty_r a b : b <> ""%string -> (a ++ b)%string <> ""%string.
Proof. destruct a; [auto|discriminate]. Qed.

Lemma labels_length ex : (2 <= List.length (labels (tokenize_evals tok bos_token eos_token ex)))%nat.
Proof.
  cbn [tokenize_evals labels]. rewrite length_app, repeat_length.
  pose proof (tokenize_nonempty _ (app_nonempty_l bos_token (ex_input ex) bos_nonempty)).
  pose proof (tokenize_nonempty _ (app_nonempty_r (ex_output ex) eos_token eos_nonempty)).
  lia.
Qed.

(** C5: [tokenize_evals] concatenates the truncated tokenized source
    ([bos_token] + input) and target (output + [eos_token]) into
    [input_ids], and masks the source with IGNORE_INDEX in [labels]; the
    filter then keeps exactly the examples whose second-to-last label is an
    answer-option token.  (The hypotheses: the special tokens are non-empty
    strings and the tokenizer gives at least one token for a non-empty
    string.) *)
Theorem tokenize_evals_and_filter (ds : list bench_example) :
  (forall ex, In ex ds ->
     input_ids (tokenize_evals tok bos_token eos_token ex) =
       firstn 2048 (tok (bos_token ++ ex_input ex)) ++ firstn 2048 (tok (ex_output ex ++ eos_token)) /\
     labels (tokenize_evals tok bos_token eos_token ex) =
       repeat (-100) (List.length (firstn 2048 (tok (bos_token ++ ex_input ex))))
       ++ firstn 2048 (tok (ex_output ex ++ eos_token))) /\
  prepare_bench_dataset tok bos_token eos_token abcd_idx ds =
    Some (filter (fun x => match nth_error (labels x) (List.length (labels x) - 2) with
                           | Some t => existsb (Z.eqb t) abcd_idx
                           | None => false
                           end)
                 (map (tokenize_evals tok bos_token eos_token) ds)).
Proof.
  split; [intros ex _; split; reflexivity|].
  unfold prepare_bench_dataset.
  induction ds as [|ex ds IH]; [reflexivity|].
  cbn [map ds_filter filter]. rewrite IH.
  unfold keep_row. rewrite py_index_minus_two by apply labels_length.
  destruct (nth_error _ _) as [t|] eqn:Ht.
  - cbn. unfold z_in. destruct (existsb (Z.eqb t) abcd_idx); reflexivity.
  - exfalso. apply nth_error_None in Ht. pose proof (labels_length ex). lia.
Qed.

End Tokenize.

Lemma tokenize_evals_and_filter_witness :
  BenchEval.prepare_bench_dataset Samples.char_tok "^" "$" Samples.char_abcd
    [Samples.mmlu_example; Samples.open_example]
  = Some [BenchEval.tokenize_evals Samples.char_tok "^" "$" Samples.mmlu_example].
Proof.
  rewrite (proj2 (tokenize_evals_and_filter Samples.char_tok "^" "$" Samples.char_abcd
                    ltac:(intros [|a s] H; [contradiction H; reflexivity|discriminate])
                    ltac:(discriminate) ltac:(discriminate)
                    [Samples.mmlu_example; Samples.open_example])).
  vm_compute. reflexivity.
Defined.

End TokenizeFacts.

(** ** Predictions and references of a bench batch *)

Module BatchFacts.
Import BenchEval.

(** C4: two examples whose target is three tokens (a token 5, the option
    token "A" = 10, then eos = 2) both pass the [labels[-2]] filter, yet
    the batch yields two predictions and three references [-1; -1; 0]:
    the references come from the pairs (5, 10), (2, 5), (10, 2), so the
    second reference is the first example's eos rather than the second
    example's answer. *)
Theorem bench_step_misaligned_refs :
  let abcd_idx := [10; 11; 12; 13; 14; 15; 16] in
  let batch_labels := [[-100; 5; 10; 2]; [-100; 5; 10; 2]] in
  let row := repeat 0%Q 17 in
  let logits := [[row; row; row; row]; [row; row; row; row]] in
  map (fun l => option_map (fun t => z_in t abcd_idx) (py_index l (-2))) batch_labels
    = [Some true; Some true] /\
  bench_step abcd_idx ([], [], 0%Q) (1%Q, logits, batch_labels)
    = Some ([0; 0], [-1; -1; 0], (0 + 1)%Q).
Proof. vm_compute. split; reflexivity. Qed.

End BatchFacts.

(** ** Aggregation invariants *)

Module AggregationFacts.
Import BenchEval.

Lemma fold_left_inv {A B} (P : A -> Prop) (f : A -> B -> A) (l : list B) (a : A) :
  P a -> (forall a x, In x l -> P a -> P (f a x)) -> P (fold_left f l a).
Proof.
  revert a. induction l as [|x l IH]; intros a Ha Hf; cbn; [exact Ha|].
  apply IH; [apply Hf; [left; reflexivity|exact Ha]|].
  intros a' y Hy. apply Hf. right; exact Hy.
Qed.

Definition balanced_entry (e : entry) : Prop := List.length (refs e) = List.length (preds e).

Definition balanced (d : PyDict.dict entry) : Prop := Forall (fun kv => balanced_entry (snd kv)) d.

Lemma set_balanced d k e : balanced d -> balanced_entry e -> balanced (PyDict.set k e d).
Proof.
  unfold balanced. induction d as [|[k0 e0] d IH]; intros Hd He; cbn.
  - constructor; [exact He|constructor].
  - inversion Hd; subst. destruct (string_dec k k0); constructor; auto.
Qed.

Lemma get_balanced d k e : balanced d -> PyDict.get k d = Some e -> balanced_entry e.
Proof.
  intros Hd Hg. apply PyDictFacts.get_in in Hg.
  unfold balanced in Hd. rewrite Forall_forall in Hd. apply (Hd _ Hg).
Qed.

Lemma local_bench_names_balanced rl : balanced (local_bench_names rl).
Proof.
  unfold local_bench_names. apply fold_left_inv.
  - unfold balanced. apply Forall_forall. intros kv Hkv.
    apply in_map_iff in Hkv as [s [<- _]]. reflexivity.
  - intros d [[s p] r] _ Hd.
    destruct (PyDict.get s d) as [e|] eqn:Hg; [|exact Hd].
    apply set_balanced; [exact Hd|].
    pose proof (get_balanced _ _ _ Hd Hg) as He. unfold balanced_entry in *. cbn.
    rewrite !length_app. cbn. lia.
Qed.

Lemma combine_step_balanced comb nd :
  balanced comb -> balanced_entry (snd nd) -> balanced (combine_step comb nd).
Proof.
  destruct nd as [name data]. cbn. intros Hc Hdata.
  set (comb' := if PyDict.mem name comb then comb else PyDict.set name empty_entry comb).
  assert (Hc' : balanced comb').
  { subst comb'. destruct (PyDict.mem name comb); [exact Hc|].
    apply set_balanced; [exact Hc|reflexivity]. }
  destruct (PyDict.get name comb') as [e|] eqn:Hg; [|exact Hc'].
  apply set_balanced; [exact Hc'|].
  pose proof (get_balanced _ _ _ Hc' Hg) as He. unfold balanced_entry in *. cbn.
  rewrite !length_app. lia.
Qed.

Lemma combine_bench_names_balanced gathered :
  Forall balanced gathered -> balanced (combine_bench_names gathered).
Proof.
  intros Hg. unfold combine_bench_names. apply fold_left_inv; [constructor|].
  intros comb bn Hbn Hc. rewrite Forall_forall in Hg. specialize (Hg _ Hbn).
  apply fold_left_inv; [exact Hc|].
  intros comb' nd Hnd Hc'. apply combine_step_balanced; [exact Hc'|].
  unfold balanced in Hg. rewrite Forall_forall in Hg. apply (Hg _ Hnd).
Qed.

Lemma combine_bench_names_nodup gathered : NoDup (map fst (combine_bench_names gathered)).
Proof.
  unfold combine_bench_names. apply fold_left_inv; [constructor|].
  intros comb bn _ Hc. apply fold_left_inv; [exact Hc|].
  intros comb' [name data] _ Hc'. cbn.
  set (comb'' := if PyDict.mem name comb' then comb' else PyDict.set name empty_entry comb').
  assert (Hc'' : NoDup (map fst comb'')).
  { subst comb''. destruct (PyDict.mem name comb'); [exact Hc'|].
    apply PyDictFacts.set_nodup; exact Hc'. }
  destruct (PyDict.get name comb''); [|exact Hc''].
  apply PyDictFacts.set_nodup; exact Hc''.
Qed.

Lemma accuracy_balanced rs ps :
  List.length rs = List.length ps -> exists x, accuracy rs ps = Some x.
Proof.
  intros H. unfold accuracy. rewrite H, Nat.eqb_refl.
  destruct rs; eexists; reflexivity.
Qed.

Definition set_scores (r : PyDict.dict num) (items : list (string * entry)) : PyDict.dict num :=
  fold_left (fun r ne => PyDict.set (accuracy_key (fst ne)) (Fin (category_score (snd ne))) r)
            items r.

Lemma score_loop_balanced items st :
  balanced items ->
  score_loop items st =
    Some {| results := set_scores (results st) items;
            bench_scores := bench_scores st ++ map (fun ne => category_score (snd ne)) items;
            bench_refs := bench_refs st ++ flat_map (fun ne => refs (snd ne)) items;
            bench_preds := bench_preds st ++ flat_map (fun ne => preds (snd ne)) items |}.
Proof.
  revert st. induction items as [|[name e] items IH]; intros st Hb.
  - cbn. rewrite !app_nil_r. destruct st; reflexivity.
  - inversion Hb as [|? ? He Hb']; subst. cbn in He.
    destruct (accuracy_balanced _ _ He) as [x Hx].
    cbn [score_loop]. rewrite Hx.
    unfold set_scores. cbn [fold_left map flat_map fst snd].
    assert (Hcs : category_score e = match x with Fin q => q | NaN => 0%Q end)
      by (unfold category_score; rewrite Hx; reflexivity).
    rewrite Hcs.
    destruct x as [q|]; rewrite IH by exact Hb';
      cbn [results bench_scores bench_refs bench_preds]; rewrite <- !app_assoc; reflexivity.
Qed.

Lemma score_loop_nodup items st st' :
  score_loop items st = Some st' ->
  NoDup (map fst (results st)) -> NoDup (map fst (results st')).
Proof.
  revert st. induction items as [|[name e] items IH]; intros st Hs Hnd; cbn in Hs.
  - injection Hs as <-. exact Hnd.
  - destruct (accuracy (refs e) (preds e)) as [[q|]|]; [| |discriminate];
      apply (IH _ Hs); cbn; apply PyDictFacts.set_nodup; exact Hnd.
Qed.

Lemma flat_map_balanced_length (items : list (string * entry)) :
  balanced items ->
  List.length (flat_map (fun ne => refs (snd ne)) items)
  = List.length (flat_map (fun ne => preds (snd ne)) items).
Proof.
  induction items as [|[name e] items IH]; intros Hb; [reflexivity|].
  inversion Hb as [|? ? He Hb']; subst. cbn in *.
  rewrite !length_app, He, IH by exact Hb'. reflexivity.
Qed.

Lemma combined_balanced ranks :
  balanced (combine_bench_names (map local_bench_names ranks)).
Proof.
  apply combine_bench_names_balanced. apply Forall_forall.
  intros d Hd. apply in_map_iff in Hd as [rl [<- _]]. apply local_bench_names_balanced.
Qed.

(** The main process's [results], when some rank has a batch. *)
Lemma main_results_shape ranks :
  fold_left Z.add (map len_data_loader ranks) 0 <> 0 ->
  let combined := combine_bench_names (map local_bench_names ranks) in
  exists tot,
    accuracy (flat_map (fun ne => refs (snd ne)) combined)
             (flat_map (fun ne => preds (snd ne)) combined) = Some tot /\
    main_results ranks =
      inr (PyDict.set total_key tot
             (PyDict.set average_key (np_mean (map (fun ne => category_score (snd ne)) combined))
                (set_scores
                   [(loss_key, Fin (qsum (map loss_bench ranks)
                                     / inject_Z (fold_left Z.add (map len_data_loader ranks) 0%Z))%Q)]
                   combined))).
Proof.
  intros Hden combined.
  pose proof (combined_balanced ranks) as Hb. fold combined in Hb.
  destruct (accuracy_balanced _ _ (flat_map_balanced_length _ Hb)) as [tot Htot].
  exists tot. split; [exact Htot|].
  unfold main_results, bench_loss, gather_scalar_from_all_ranks.
  apply Z.eqb_neq in Hden. rewrite Hden. fold combined.
  rewrite (score_loop_balanced _ _ Hb). cbn [results bench_scores bench_refs bench_preds app].
  rewrite Htot. reflexivity.
Qed.

Lemma accuracy_key_inj n1 n2 : accuracy_key n1 = accuracy_key n2 -> n1 = n2.
Proof. unfold accuracy_key. intros H. apply append_cancel_l, append_cancel_l in H. exact H. Qed.

Lemma get_set_scores_other k r items :
  (forall ne, In ne items -> k <> accuracy_key (fst ne)) ->
  PyDict.get k (set_scores r items) = PyDict.get k r.
Proof.
  unfold set_scores. revert r.
  induction items as [|ne items IH]; intros r Hk; [reflexivity|].
  cbn. rewrite IH by (intros ne' Hne'; apply Hk; right; exact Hne').
  apply PyDictFacts.get_set_ne. apply Hk. left; reflexivity.
Qed.

Lemma get_set_scores_in r items name e :
  NoDup (map fst items) -> In (name, e) items ->
  PyDict.get (accuracy_key name) (set_scores r items) = Some (Fin (category_score e)).
Proof.
  unfold set_scores. revert r.
  induction items as [|[n0 e0] items IH]; intros r Hnd Hin; [destruct Hin|].
  inversion Hnd as [|? ? Hn Hnd']; subst. cbn [fold_left fst snd].
  destruct Hin as [[= <- <-]|Hin].
  - fold (set_scores (PyDict.set (accuracy_key n0) (Fin (category_score e0)) r) items).
    rewrite get_set_scores_other.
    + apply PyDictFacts.get_set_eq.
    + intros [n' e'] Hne' Heq. apply accuracy_key_inj in Heq. cbn in Heq. subst n'.
      apply Hn. apply (in_map fst) in Hne'. exact Hne'.
  - apply IH; assumption.
Qed.

Lemma loss_key_not_accuracy n : loss_key <> accuracy_key n.
Proof. unfold loss_key, accuracy_key, bench_split. cbn. discriminate. Qed.

Lemma average_key_not_accuracy n : average_key <> accuracy_key n.
Proof. unfold average_key, accuracy_key, bench_split. cbn. discriminate. Qed.

Lemma total_key_not_accuracy n : total_key <> accuracy_key n.
Proof. unfold total_key, accuracy_key, bench_split. cbn. discriminate. Qed.

Lemma total_key_not_average : total_key <> average_key.
Proof. unfold total_key, average_key, bench_split. cbn. discriminate. Qed.

Lemma loss_key_not_average : loss_key <> average_key.
Proof. unfold loss_key, average_key, bench_split. cbn. discriminate. Qed.

Lemma loss_key_not_total : loss_key <> total_key.
Proof. unfold loss_key, total_key, bench_split. cbn. discriminate. Qed.

Lemma main_results_nodup ranks res :
  main_results ranks = inr res -> NoDup (map fst res).
Proof.
  unfold main_results.
  destruct (bench_loss _ _) as [bl|]; [|discriminate].
  destruct (score_loop _ _) as [st|] eqn:Hs; [|discriminate].
  destruct (accuracy (bench_refs st) (bench_preds st)) as [tot|]; [|discriminate].
  intros [= <-]. apply PyDictFacts.set_nodup, PyDictFacts.set_nodup.
  apply (score_loop_nodup _ _ _ Hs). cbn. repeat constructor. intros [].
Qed.

Lemma main_results_ranks_nonempty ranks res :
  main_results ranks = inr res -> ranks <> [].
Proof. intros H ->. discriminate H. Qed.

End AggregationFacts.

(** ** [BenchEvalCallback.on_evaluate] *)

Module BenchEvalFacts.
Import BenchEval AggregationFacts.

(** C2: the bench loss in the results is the sum over ranks of each rank's
    accumulated loss divided by the sum over ranks of each rank's number of
    batches. *)
Theorem bench_loss_batch_weighted (ranks : list rank_local) :
  fold_left Z.add (map len_data_loader ranks) 0 <> 0 ->
  exists res, main_results ranks = inr res /\
    PyDict.get loss_key res =
      Some (Fin (qsum (map loss_bench ranks)
                 / inject_Z (fold_left Z.add (map len_data_loader ranks) 0%Z))%Q).
Proof.
  intros Hden. destruct (main_results_shape ranks Hden) as [tot [_ Hm]].
  eexists; split; [exact Hm|].
  rewrite PyDictFacts.get_set_ne by exact loss_key_not_total.
  rewrite PyDictFacts.get_set_ne by exact loss_key_not_average.
  rewrite get_set_scores_other by (intros ne _; apply loss_key_not_accuracy).
  cbn [PyDict.get]. destruct (string_dec loss_key loss_key); [reflexivity|contradiction].
Qed.

Lemma bench_loss_batch_weighted_witness :
  exists res q, main_results [Samples.rank0; Samples.rank1] = inr res /\
    PyDict.get loss_key res = Some (Fin q) /\ (q == 5 # 6)%Q.
Proof.
  destruct (bench_loss_batch_weighted [Samples.rank0; Samples.rank1]
              ltac:(vm_compute; discriminate)) as [res [Hres Hloss]].
  eexists res, _. split; [exact Hres|]. split; [exact Hloss|]. vm_compute. reflexivity.
Defined.

(** C3: after the per-rank results are merged by category, each category
    [name] gets [eval_bench_accuracy_<name>] = its accuracy (0.0 when the
    accuracy is NaN); [eval_bench_average_accuracy] is the plain mean of
    these scores; [eval_bench_total_accuracy] is the accuracy over the
    concatenated references and predictions of all categories. *)
Theorem bench_accuracy_macro_micro (ranks : list rank_local) :
  fold_left Z.add (map len_data_loader ranks) 0 <> 0 ->
  combine_bench_names (map local_bench_names ranks) <> [] ->
  exists res, main_results ranks = inr res /\
    (forall name e, In (name, e) (combine_bench_names (map local_bench_names ranks)) ->
       PyDict.get (accuracy_key name) res = Some (Fin (category_score e))) /\
    PyDict.get average_key res =
      Some (Fin (qsum (map (fun ne => category_score (snd ne))
                           (combine_bench_names (map local_bench_names ranks)))
                 / inject_Z (Z.of_nat (List.length (combine_bench_names (map local_bench_names ranks)))))%Q) /\
    exists tot,
      accuracy (flat_map (fun ne => refs (snd ne)) (combine_bench_names (map local_bench_names ranks)))
               (flat_map (fun ne => preds (snd ne)) (combine_bench_names (map local_bench_names ranks)))
        = Some tot /\
      PyDict.get total_key res = Some tot.
Proof.
  intros Hden Hne.
  destruct (main_results_shape ranks Hden) as [tot [Htot Hm]].
  set (combined := combine_bench_names (map local_bench_names ranks)) in *.
  eexists; split; [exact Hm|]. split; [|split].
  - intros name e Hin.
    rewrite PyDictFacts.get_set_ne by (apply not_eq_sym, total_key_not_accuracy).
    rewrite PyDictFacts.get_set_ne by (apply not_eq_sym, average_key_not_accuracy).
    apply get_set_scores_in; [apply combine_bench_names_nodup|exact Hin].
  - rewrite PyDictFacts.get_set_ne by exact (not_eq_sym total_key_not_average).
    rewrite PyDictFacts.get_set_eq. unfold np_mean.
    destruct combined as [|ne items]; [contradiction|].
    rewrite length_map. reflexivity.
  - exists tot. split; [exact Htot|]. apply PyDictFacts.get_set_eq.
Qed.

Lemma bench_accuracy_macro_micro_witness :
  exists res, main_results [Samples.rank0; Samples.rank1] = inr res /\
    PyDict.get average_key res =
      Some (Fin (qsum (map (fun ne => category_score (snd ne))
                           (combine_bench_names (map local_bench_names [Samples.rank0; Samples.rank1])))
                 / inject_Z 2)%Q).
Proof.
  destruct (bench_accuracy_macro_micro [Samples.rank0; Samples.rank1]
              ltac:(vm_compute; discriminate) ltac:(vm_compute; discriminate))
    as [res [Hm [_ [Havg _]]]].
  exists res. split; [exact Hm|]. rewrite Havg. reflexivity.
Defined.

(** C1: when the main process computed [results], after [on_evaluate]
    every rank's [metrics] holds every key of [results] with the value the
    main process computed. *)
Theorem on_evaluate_broadcasts_results (ranks : list rank_local)
    (metrics out : list (PyDict.dict num)) (res : PyDict.dict num) :
  main_results ranks = inr res ->
  List.length metrics = List.length ranks ->
  on_evaluate ranks metrics = inr out ->
  List.length out = List.length metrics /\
  forall m, In m out -> forall k v, PyDict.get k res = Some v -> PyDict.get k m = Some v.
Proof.
  intros Hres Hlen Hout.
  pose proof (main_results_nodup _ _ Hres) as Hnd.
  pose proof (main_results_ranks_nonempty _ _ Hres) as Hr.
  unfold on_evaluate in Hout. rewrite Hres in Hout. injection Hout as <-.
  destruct ranks as [|r0 rest]; [contradiction|]. cbn [tl broadcast_dict].
  rewrite map_map.
  assert (Hrec : map (fun _ : rank_local => res) rest = repeat res (List.length rest)).
  { clear. induction rest; cbn; congruence. }
  rewrite Hrec. change (res :: repeat res (List.length rest))
    with (repeat res (S (List.length rest))).
  cbn [List.length] in Hlen. rewrite <- Hlen.
  assert (Hc : forall (ms : list (PyDict.dict num)),
             combine ms (repeat res (List.length ms)) = map (fun m => (m, res)) ms).
  { clear. induction ms; cbn; congruence. }
  rewrite Hc, map_map, length_map. split; [reflexivity|].
  intros m Hm k v Hk. apply in_map_iff in Hm as [m0 [<- _]]. cbn [fst snd].
  rewrite PyDictFacts.get_update by exact Hnd. rewrite Hk. reflexivity.
Qed.

Lemma on_evaluate_broadcasts_results_witness :
  exists out, on_evaluate [Samples.rank0; Samples.rank1]
                          [[("epoch"%string, Fin 1)]; []] = inr out /\
  forall m, In m out ->
  PyDict.get loss_key m = PyDict.get loss_key
    (match main_results [Samples.rank0; Samples.rank1] with inr r => r | inl _ => [] end).
Proof.
  destruct (bench_loss_batch_weighted [Samples.rank0; Samples.rank1]
              ltac:(vm_compute; discriminate)) as [res [Hres Hloss]].
  set (metrics := [[("epoch"%string, Fin 1)]; []] : list (PyDict.dict num)).
  set (out := match on_evaluate [Samples.rank0; Samples.rank1] metrics with
              | inr o => o | inl _ => [] end).
  assert (Hout : on_evaluate [Samples.rank0; Samples.rank1] metrics = inr out)
    by (vm_compute; reflexivity).
  exists out. split; [exact Hout|].
  intros m Hm. rewrite Hres, Hloss.
  apply (proj2 (on_evaluate_broadcasts_results _ metrics out res Hres eq_refl Hout) m Hm).
  exact Hloss.
Defined.

End BenchEvalFacts.

(** * Further properties of the callbacks *)

(** ** [RunPodCallback] across its events *)

Module RunPodEventFacts.
Import RunPodCallback RunPodEvents RunPodViews.

Section Facts.
Context {V : Type} (json_dumps : @progress_content (logs_buckets V) -> string).





End Facts.





End RunPodEventFacts.

(** ** [GPUStatsCallback] *)

Module GPUStatsFacts.
Import GPUStatsCallback.

Lemma run_cons st steps control s :
  run (st :: steps) control s = run steps control (snd (on_step_end st control s)).
Proof. reflexivity. Qed.

Lemma run_logged steps control s : logged s = true -> run steps control s = s.
Proof.
  revert s. induction steps as [|st steps IH]; intros s Hs; [reflexivity|].
  rewrite run_cons. unfold on_step_end. rewrite Hs. cbn [negb andb snd].
  apply IH, Hs.
Qed.

(** X3: over any run, the callback logs the GPU memory usage once, at the
    first step end whose [global_step] exceeds 1, and never when no step
    does. *)
Theorem gpu_stats_logs_once (steps : list TrainerState) (control : TrainerControl) :
  let s := run steps control init in
  memory_logs s =
    match find (fun st => 1 <? global_step st) steps with
    | Some st => [global_step st]
    | None => []
    end /\
  logged s = match find (fun st => 1 <? global_step st) steps with
             | Some _ => true
             | None => false
             end.
Proof.
  induction steps as [|st steps IH]; [split; reflexivity|].
  rewrite run_cons. cbn [find]. unfold on_step_end. cbn [logged init negb andb].
  destruct (1 <? global_step st) eqn:Hg; cbn [snd].
  - rewrite run_logged by reflexivity. split; reflexivity.
  - exact IH.
Qed.

End GPUStatsFacts.

(** ** Loading the benchmark dataset *)

Module BenchSourceFacts.
Import BenchSource.

Lemma split_no_sep sep l : ~ In sep l -> PyStr.split sep l = [l].
Proof.
  induction l as [|c l IH]; intros H; [reflexivity|].
  cbn [PyStr.split]. rewrite IH by (intros Hin; apply H; right; exact Hin).
  destruct (Ascii.eqb c sep) eqn:E;
    [apply Ascii.eqb_eq in E; subst; exfalso; apply H; left; reflexivity|].
  reflexivity.
Qed.

Lemma split_parts_no_sep sep l : Forall (fun p => ~ In sep p) (PyStr.split sep l).
Proof.
  induction l as [|c l IH]; cbn [PyStr.split].
  - constructor; [intros []|constructor].
  - destruct (Ascii.eqb c sep) eqn:E.
    + constructor; [intros []|exact IH].
    + destruct (PyStr.split sep l) as [|p ps]; [constructor; [|constructor]|].
      * intros [<-|[]]. rewrite Ascii.eqb_refl in E. discriminate.
      * inversion IH as [|? ? Hp Hps]; subst. constructor; [|exact Hps].
        intros [<-|Hin]; [rewrite Ascii.eqb_refl in E; discriminate|exact (Hp Hin)].
Qed.

Lemma drop_spaces_incl l c : In c (PyStr.drop_spaces l) -> In c l.
Proof.
  induction l as [|x l IH]; cbn; [tauto|].
  destruct (PyStr.is_space x); [intros H; right; apply IH, H|tauto].
Qed.

Lemma strip_incl l c : In c (PyStr.strip l) -> In c l.
Proof.
  unfold PyStr.strip. intros H. apply in_rev in H. apply drop_spaces_incl in H.
  apply in_rev in H. apply drop_spaces_incl in H. exact H.
Qed.

Lemma lower_char_idem c : PyStr.lower_char (PyStr.lower_char c) = PyStr.lower_char c.
Proof. destruct c as [[] [] [] [] [] [] [] []]; vm_compute; reflexivity. Qed.

Lemma lower_char_colon c : PyStr.lower_char c = ":"%char -> c = ":"%char.
Proof. destruct c as [[] [] [] [] [] [] [] []]; vm_compute; congruence. Qed.

Lemma replace_char_in a b l c :
  In c (PyStr.replace_char a b l) -> c = b \/ (In c l /\ c <> a).
Proof.
  unfold PyStr.replace_char. intros H. apply in_map_iff in H as [x [<- Hx]].
  destruct (Ascii.eqb x a) eqn:E; [left; reflexivity|right].
  split; [exact Hx|intros ->; rewrite Ascii.eqb_refl in E; discriminate].
Qed.

(** X4: [transform_bench_subject] returns a [name] without '-' or ':'
    that [lower()] leaves unchanged, a [subject] without '-' or ':', and
    the subject "all" when the original subject has no ':'. *)
Theorem transform_bench_subject_shape (subject : string) :
  let '(name, subj) := transform_bench_subject subject in
  (forall c, In c (list_ascii_of_string name) ->
     c <> "-"%char /\ c <> ":"%char /\ PyStr.lower_char c = c) /\
  (forall c, In c (list_ascii_of_string subj) -> c <> "-"%char /\ c <> ":"%char) /\
  (~ In ":"%char (list_ascii_of_string subject) -> subj = "all"%string).
Proof.
  unfold transform_bench_subject. rewrite !list_ascii_of_string_of_list_ascii.
  pose proof (split_parts_no_sep ":" (list_ascii_of_string subject)) as Hparts.
  split; [|split].
  - intros c Hc. apply replace_char_in in Hc as [->|[Hc Hne]].
    + split; [discriminate|split; [discriminate|reflexivity]].
    + unfold PyStr.lower in Hc. apply in_map_iff in Hc as [x [<- Hx]].
      split; [exact Hne|split; [|apply lower_char_idem]].
      intros Hcol. apply lower_char_colon in Hcol. subst x.
      apply strip_incl in Hx.
      destruct (PyStr.split ":" (list_ascii_of_string subject)) as [|p ps]; [contradiction|].
      inversion Hparts as [|? ? Hp _]; subst. exact (Hp Hx).
  - intros c Hc.
    destruct (PyStr.split ":" (list_ascii_of_string subject)) as [|p [|p1 ps]] eqn:Hs.
    + cbn in Hc. destruct Hc as [<-|[<-|[<-|[]]]]; split; discriminate.
    + cbn in Hc. destruct Hc as [<-|[<-|[<-|[]]]]; split; discriminate.
    + apply replace_char_in in Hc as [->|[Hc Hne]]; [split; discriminate|].
      split; [exact Hne|]. intros ->. apply strip_incl in Hc.
      inversion Hparts as [|? ? _ Hps]; subst. inversion Hps as [|? ? Hp1 _]; subst.
      exact (Hp1 Hc).
  - intros Hno. rewrite split_no_sep by exact Hno. reflexivity.
Qed.

Lemma split_max_zero sep l : PyStr.split_max sep l 0 = [l].
Proof.
  induction l as [|c l IH]; [reflexivity|]. cbn [PyStr.split_max].
  destruct (Ascii.eqb c sep); [reflexivity|]. rewrite IH. reflexivity.
Qed.

Lemma split_max_no_sep sep l n : ~ In sep l -> PyStr.split_max sep l n = [l].
Proof.
  induction l as [|c l IH]; intros H; [reflexivity|].
  cbn [PyStr.split_max]. destruct (Ascii.eqb c sep) eqn:E.
  - apply Ascii.eqb_eq in E. subst. exfalso. apply H. left. reflexivity.
  - rewrite IH by (intros Hin; apply H; right; exact Hin). reflexivity.
Qed.

Lemma split_max_first sep l n :
  In sep l ->
  exists p l', l = p ++ sep :: l' /\ ~ In sep p /\
               PyStr.split_max sep l (S n) = p :: PyStr.split_max sep l' n.
Proof.
  induction l as [|c l IH]; intros H; [destruct H|].
  cbn [PyStr.split_max]. destruct (Ascii.eqb c sep) eqn:E.
  - apply Ascii.eqb_eq in E. subst.
    exists [], l. split; [reflexivity|split; [intros []|reflexivity]].
  - destruct H as [->|H]; [rewrite Ascii.eqb_refl in E; discriminate|].
    destruct (IH H) as [p [l' [Hl [Hp Hs]]]].
    exists (c :: p), l'. rewrite Hs. split; [rewrite Hl; reflexivity|split; [|reflexivity]].
    intros [->|Hin]; [rewrite Ascii.eqb_refl in E; discriminate|exact (Hp Hin)].
Qed.

Lemma list_ascii_of_string_app a b :
  list_ascii_of_string (a ++ b) = list_ascii_of_string a ++ list_ascii_of_string b.
Proof. induction a as [|c a IH]; cbn; [reflexivity|]. rewrite IH. reflexivity. Qed.

Lemma list_ascii_of_string_inj a b : list_ascii_of_string a = list_ascii_of_string b -> a = b.
Proof.
  intros H.
  rewrite <- (string_of_list_ascii_of_string a), <- (string_of_list_ascii_of_string b), H.
  reflexivity.
Qed.

Lemma has_slash_in s : has_slash s = true <-> In "/"%char (list_ascii_of_string s).
Proof.
  unfold has_slash. rewrite existsb_exists. split.
  - intros [c [Hc E]]. apply Ascii.eqb_eq in E. subst. exact Hc.
  - intros H. exists "/"%char. split; [exact H|apply Ascii.eqb_refl].
Qed.

Lemma count_no_sep l : ~ In "/"%char l -> count_occ ascii_dec l "/"%char = 0%nat.
Proof. intros H. apply count_occ_not_In. exact H. Qed.

Lemma count_app_sep p l :
  count_occ ascii_dec (p ++ "/"%char :: l) "/"%char =
  (count_occ ascii_dec p "/"%char + S (count_occ ascii_dec l "/"%char))%nat.
Proof. rewrite count_occ_app. cbn. destruct (ascii_dec "/" "/"); [reflexivity|congruence]. Qed.

(** X6: for a [bench_dataset] path with a '/', the dataset name is the
    text up to the second '/' (or the whole path if it has only one '/'),
    it holds exactly one '/', and the data file is the rest: name, '/' and
    file give back the path when it has two or more '/', and the file is
    empty when it has one.  Only the split "eval" exists; any other
    [bench_split] raises the KeyError. *)
Theorem bench_dataset_path (bench_dataset : string) :
  has_slash bench_dataset = true ->
  let slashes := count_occ ascii_dec (list_ascii_of_string bench_dataset) "/"%char in
  exists name file,
    select_bench_dataset bench_dataset =
      inr {| ds_path := name; data_files := [("eval"%string, file)] |} /\
    count_occ ascii_dec (list_ascii_of_string name) "/"%char = 1%nat /\
    ((2 <= slashes)%nat -> (name ++ "/" ++ file)%string = bench_dataset) /\
    (slashes = 1%nat -> name = bench_dataset /\ file = ""%string) /\
    (forall split, bench_split_file bench_dataset split =
                   if String.eqb split "eval" then inr (name, file) else inl MissingSplit).
Proof.
  intros Hs slashes.
  assert (Hsel : select_bench_dataset bench_dataset =
    inr {| ds_path := string_of_list_ascii
                        (PyStr.join "/" (firstn 2 (PyStr.split_max "/" (list_ascii_of_string bench_dataset) 2)));
           data_files := [("eval"%string, string_of_list_ascii
                        (PyStr.join "/" (skipn 2 (PyStr.split_max "/" (list_ascii_of_string bench_dataset) 2))))] |}).
  { unfold select_bench_dataset.
    destruct (String.eqb bench_dataset "mmlu-zs") eqn:E1;
      [apply String.eqb_eq in E1; subst; discriminate|].
    destruct (String.eqb bench_dataset "mmlu") eqn:E2;
      [apply String.eqb_eq in E2; subst; discriminate|].
    destruct (String.eqb bench_dataset "mmlu-fs") eqn:E3;
      [apply String.eqb_eq in E3; subst; discriminate|].
    cbn [orb]. rewrite Hs. reflexivity. }
  assert (Hsplit_file : forall name file,
            select_bench_dataset bench_dataset =
              inr {| ds_path := name; data_files := [("eval"%string, file)] |} ->
            forall split, bench_split_file bench_dataset split =
                          if String.eqb split "eval" then inr (name, file) else inl MissingSplit).
  { intros name file Hn split. unfold bench_split_file. rewrite Hn.
    cbn [data_files ds_path PyDict.get].
    destruct (String.eqb split "eval") eqn:E.
    - apply String.eqb_eq in E. subst. reflexivity.
    - apply String.eqb_neq in E. destruct (string_dec split "eval"); [contradiction|reflexivity]. }
  apply has_slash_in in Hs.
  destruct (split_max_first "/" _ 1 Hs) as [p0 [l1 [Hl [Hp0 Hsplit]]]].
  rewrite Hsplit in Hsel. apply count_no_sep in Hp0.
  subst slashes. rewrite Hl. rewrite count_app_sep, Hp0.
  destruct (in_dec ascii_dec "/"%char l1) as [Hin|Hnin].
  - destruct (split_max_first "/" _ 0 Hin) as [p1 [l2 [Hl1 [Hp1 Hsplit1]]]].
    rewrite Hsplit1, split_max_zero in Hsel. cbn [firstn skipn PyStr.join] in Hsel.
    apply count_no_sep in Hp1.
    eexists _, _. split; [exact Hsel|].
    rewrite list_ascii_of_string_of_list_ascii, count_app_sep, Hp0, Hp1.
    split; [reflexivity|]. rewrite Hl1, count_app_sep, Hp1.
    split; [|split; [lia|exact (Hsplit_file _ _ Hsel)]].
    intros _. apply list_ascii_of_string_inj.
    rewrite !list_ascii_of_string_app, !list_ascii_of_string_of_list_ascii, Hl, Hl1.
    cbn. rewrite <- app_assoc. reflexivity.
  - rewrite (split_max_no_sep "/" l1 1 Hnin) in Hsel. cbn [firstn skipn PyStr.join] in Hsel.
    apply count_no_sep in Hnin.
    eexists _, _. split; [exact Hsel|].
    rewrite list_ascii_of_string_of_list_ascii, count_app_sep, Hp0, Hnin.
    split; [reflexivity|].
    split; [lia|split; [|exact (Hsplit_file _ _ Hsel)]].
    intros _. split; [|reflexivity]. apply list_ascii_of_string_inj.
    rewrite list_ascii_of_string_of_list_ascii. symmetry. exact Hl.
Qed.

Lemma bench_dataset_path_witness :
  exists name file,
    select_bench_dataset "org/ds/evals.json" =
      inr {| ds_path := name; data_files := [("eval"%string, file)] |} /\
    (name ++ "/" ++ file)%string = "org/ds/evals.json"%string /\
    bench_split_file "org/ds/evals.json" "test" = inl MissingSplit.
Proof.
  pose proof (bench_dataset_path "org/ds/evals.json" eq_refl) as H. cbv zeta in H.
  destruct H as [name [file [Hsel [_ [Hjoin [_ Hsplit]]]]]].
  exists name, file. split; [exact Hsel|split].
  - apply Hjoin. apply Nat.leb_le. vm_compute. reflexivity.
  - rewrite Hsplit. reflexivity.
Defined.

End BenchSourceFacts.

(** ** The bench evaluation *)

Module BenchExtraFacts.
Import BenchEval BenchViews.

(** X7: [tokenize_evals] gives labels as long as the input ids, masked
    with IGNORE_INDEX over the prompt tokens and equal to the input ids
    over the target tokens. *)
Theorem tokenize_evals_labels_aligned (tok : string -> list Z) (bos_token eos_token : string)
    (ex : bench_example) :
  let t := tokenize_evals tok bos_token eos_token ex in
  List.length (labels t) = List.length (input_ids t) /\
  (forall i, (i < List.length (tokenize tok (bos_token ++ ex_input ex)))%nat ->
             nth i (labels t) 0 = IGNORE_INDEX) /\
  (forall i, (List.length (tokenize tok (bos_token ++ ex_input ex)) <= i)%nat ->
             nth i (labels t) 0 = nth i (input_ids t) 0).
Proof.
  cbn [tokenize_evals labels input_ids].
  set (src := tokenize tok (bos_token ++ ex_input ex)).
  set (tgt := tokenize tok (ex_output ex ++ eos_token)).
  split; [rewrite !length_app, repeat_length; reflexivity|split].
  - intros i Hi. rewrite app_nth1 by (rewrite repeat_length; exact Hi).
    apply nth_repeat_lt. exact Hi.
  - intros i Hi. rewrite !app_nth2 by (rewrite ?repeat_length; exact Hi).
    rewrite repeat_length. reflexivity.
Qed.

Lemma first_non_ignore_hd l :
  filter non_ignore l <> [] ->
  exists i, first_non_ignore l = Some i /\ nth_error l i = hd_error (filter non_ignore l).
Proof.
  induction l as [|x l IH]; intros H; [cbn in H; congruence|].
  cbn [first_non_ignore filter] in H |- *. unfold non_ignore in H at 1. unfold non_ignore at 1.
  destruct (Z.eqb x IGNORE_INDEX) eqn:Hx; cbn [negb] in H |- *.
  - destruct (IH H) as [i [Hi Hn]]. exists (S i). rewrite Hi. split; [reflexivity|exact Hn].
  - exists O. split; reflexivity.
Qed.

Lemma pair_firsts_two_each (ls : list (list Z)) :
  Forall (fun l => List.length (filter non_ignore l) = 2%nat) ls ->
  pair_firsts (filter non_ignore (List.concat ls)) =
  Some (map (fun l => hd 0 (filter non_ignore l)) ls).
Proof.
  induction ls as [|l ls IH]; intros H; [reflexivity|].
  inversion H as [|? ? Hl Hls]; subst.
  cbn [List.concat map]. rewrite filter_app.
  destruct (filter non_ignore l) as [|a [|b [|c r]]]; cbn in Hl; try discriminate.
  cbn [app pair_firsts hd]. rewrite (IH Hls). reflexivity.
Qed.

(** X8: when every example of a batch has exactly two labels other than
    IGNORE_INDEX, the batch gives one reference per example, the index in
    [abcd_idx] of its first such label, and the prediction of every
    example reads the logits just before that same label. *)
Theorem batch_refs_two_labels (abcd_idx : list Z) (batch_labels : list (list Z)) :
  Forall (fun l => List.length (filter non_ignore l) = 2%nat) batch_labels ->
  batch_refs abcd_idx batch_labels =
    Some (map (fun l => ref_of abcd_idx (hd 0 (filter non_ignore l))) batch_labels) /\
  Forall (fun l => exists i, first_non_ignore l = Some i /\
                             nth_error l i = Some (hd 0 (filter non_ignore l))) batch_labels.
Proof.
  intros H. split.
  - unfold batch_refs.
    change (filter (fun t => negb (Z.eqb t IGNORE_INDEX)) (List.concat batch_labels))
      with (filter non_ignore (List.concat batch_labels)).
    rewrite (pair_firsts_two_each _ H). cbn [option_map]. rewrite map_map. reflexivity.
  - apply Forall_forall. intros l Hl. rewrite Forall_forall in H. specialize (H l Hl).
    destruct (filter non_ignore l) as [|a r] eqn:Hf; [discriminate|].
    destruct (first_non_ignore_hd l ltac:(rewrite Hf; discriminate)) as [i [Hi Hn]].
    exists i. rewrite Hf in Hn. split; [exact Hi|exact Hn].
Qed.

Lemma batch_refs_two_labels_witness :
  batch_refs [65; 66] [[-100; 65; 2]; [-100; -100; 66; 2]] = Some [0; 1].
Proof.
  destruct (batch_refs_two_labels [65; 66] [[-100; 65; 2]; [-100; -100; 66; 2]]
              ltac:(repeat constructor)) as [H _].
  rewrite H. reflexivity.
Defined.

Lemma batch_preds_length abcd_idx bl logits ps :
  batch_preds abcd_idx bl logits = Some ps -> List.length ps = List.length logits.
Proof.
  revert bl ps. induction logits as [|lg logits IH]; intros bl ps H.
  - destruct bl; cbn in H; injection H as <-; reflexivity.
  - destruct bl as [|l bl]; cbn in H; [discriminate|].
    destruct (predict abcd_idx l lg); [|discriminate].
    destruct (batch_preds abcd_idx bl logits) as [ps'|] eqn:Hps; [|discriminate].
    injection H as <-. cbn. rewrite (IH _ _ Hps). reflexivity.
Qed.

Lemma fold_add_shift l a : fold_left Nat.add l a = (a + fold_left Nat.add l 0)%nat.
Proof.
  revert a. induction l as [|x l IH]; intros a; cbn; [lia|]. rewrite IH, (IH x). lia.
Qed.

Lemma bench_loop_sizes abcd_idx batches ps0 rs0 l0 ps rs l :
  bench_loop abcd_idx (ps0, rs0, l0) batches = Some (ps, rs, l) ->
  List.length ps = (List.length ps0
                    + fold_left Nat.add (map (fun b => List.length (snd (fst b))) batches) 0)%nat /\
  l = fold_left Qplus (map (fun b => fst (fst b)) batches) l0.
Proof.
  revert ps0 rs0 l0.
  induction batches as [|[[loss logits] bl] batches IH]; intros ps0 rs0 l0 H.
  - cbn in H. injection H as <- <- <-. cbn. split; [lia|reflexivity].
  - cbn [bench_loop bench_step] in H.
    destruct (batch_preds abcd_idx bl logits) as [bps|] eqn:Hp; [|discriminate].
    destruct (batch_refs abcd_idx bl) as [brs|]; [|discriminate].
    destruct (IH _ _ _ H) as [Hlen Hl]. cbn [map fold_left fst snd].
    rewrite Hlen, length_app, (batch_preds_length _ _ _ _ Hp). split; [|exact Hl].
    rewrite (fold_add_shift _ (0 + List.length logits)%nat). lia.
Qed.

(** X9: when a rank's loop over its bench data loader completes, it holds
    one prediction per example of its batches, the sum of the batch
    losses, the number of batches and the dataset's names. *)
Theorem run_rank_sizes (abcd_idx : list Z) (names : list string)
    (batches : list (Q * list (list (list Q)) * list (list Z))) (rl : rank_local) :
  run_rank abcd_idx names batches = Some rl ->
  bench_name rl = names /\
  len_data_loader rl = Z.of_nat (List.length batches) /\
  List.length (rank_preds rl) =
    fold_left Nat.add (map (fun b => List.length (snd (fst b))) batches) 0%nat /\
  loss_bench rl = fold_left Qplus (map (fun b => fst (fst b)) batches) 0%Q.
Proof.
  unfold run_rank.
  destruct (bench_loop abcd_idx ([], [], 0%Q) batches) as [[[ps rs] l]|] eqn:H; [|discriminate].
  intros E. injection E as <-. cbn.
  destruct (bench_loop_sizes _ _ _ _ _ _ _ _ H) as [Hlen Hl].
  split; [reflexivity|split; [reflexivity|split; [exact Hlen|exact Hl]]].
Qed.

Definition sample_batches : list (Q * list (list (list Q)) * list (list Z)) :=
  [(1 # 2, [[[3; 4]; [0; 0]; [0; 0]]]%Q, [[-100; 1; 7]]);
   (1%Q, [[[5; 2]; [0; 0]; [0; 0]]; [[1; 1]; [0; 0]; [0; 0]]]%Q, [[-100; 0; 7]; [-100; 1; 7]])].

Lemma run_rank_sizes_witness :
  exists rl, run_rank [0; 1] ["math"; "law"; "math"]%string sample_batches = Some rl /\
             len_data_loader rl = 2 /\ List.length (rank_preds rl) = 3%nat /\
             (loss_bench rl == 3 # 2)%Q.
Proof.
  set (rl := match run_rank [0; 1] ["math"; "law"; "math"]%string sample_batches with
             | Some r => r | None => Samples.rank0 end).
  assert (Hrl : run_rank [0; 1] ["math"; "law"; "math"]%string sample_batches = Some rl)
    by (vm_compute; reflexivity).
  destruct (run_rank_sizes _ _ _ _ Hrl) as [_ [Hlen [Hp Hl]]].
  exists rl. split; [exact Hrl|]. rewrite Hlen, Hp, Hl.
  split; [reflexivity|split; reflexivity].
Defined.

Lemma py_set_in l s : In s (py_set l) <-> In s l.
Proof.
  unfold py_set.
  assert (G : forall acc,
             In s (fold_left (fun acc s => if existsb (String.eqb s) acc then acc else acc ++ [s]) l acc)
             <-> In s acc \/ In s l).
  { induction l as [|x l IH]; intros acc; cbn [fold_left].
    - cbn. tauto.
    - rewrite IH. destruct (existsb (String.eqb x) acc) eqn:Hx.
      + apply existsb_exists in Hx as [y [Hy Hxy]]. apply String.eqb_eq in Hxy. subst y.
        cbn. split; [tauto|]. intros [H|[<-|H]]; auto.
      + rewrite in_app_iff. cbn. tauto. }
  rewrite G. cbn. tauto.
Qed.

Lemma existsb_eqb_in s l : existsb (String.eqb s) l = true <-> In s l.
Proof.
  rewrite existsb_exists. split.
  - intros [y [Hy E]]. apply String.eqb_eq in E. subst. exact Hy.
  - intros H. exists s. split; [exact H|apply String.eqb_refl].
Qed.

Lemma py_set_nodup l : NoDup (py_set l).
Proof.
  unfold py_set. apply AggregationFacts.fold_left_inv; [constructor|].
  intros acc x _ Hnd. destruct (existsb (String.eqb x) acc) eqn:Hx; [exact Hnd|].
  apply NoDup_app; [exact Hnd|repeat constructor; auto|].
  intros y Hy [<-|[]]. apply existsb_eqb_in in Hy. congruence.
Qed.

Lemma get_map_const (e : entry) ks s :
  PyDict.get s (map (fun k => (k, e)) ks) = if existsb (String.eqb s) ks then Some e else None.
Proof.
  induction ks as [|k ks IH]; [reflexivity|]. cbn [map PyDict.get existsb].
  destruct (string_dec s k) as [->|Hne].
  - rewrite String.eqb_refl. reflexivity.
  - apply String.eqb_neq in Hne. rewrite Hne. exact IH.
Qed.

Lemma local_step_spec (ts : list (string * Z * Z)) (d0 : PyDict.dict entry) :
  (forall t, In t ts -> PyDict.get (fst (fst t)) d0 <> None) ->
  forall s,
  PyDict.get s (fold_left
           (fun d spr =>
              let '(s, p, r) := spr in
              match PyDict.get s d with
              | Some e => PyDict.set s {| refs := refs e ++ [r]; preds := preds e ++ [p] |} d
              | None => d
              end) ts d0) =
  match PyDict.get s d0 with
  | Some e => Some (entry_app e (triples_entry (filter (fun t => String.eqb (fst (fst t)) s) ts)))
  | None => None
  end.
Proof.
  revert d0. induction ts as [|[[n p] r] ts IH]; intros d0 Hin s.
  - cbn. destruct (PyDict.get s d0) as [e|]; [|reflexivity].
    unfold entry_app. cbn. rewrite !app_nil_r. destruct e; reflexivity.
  - cbn [fold_left].
    assert (Hn : PyDict.get n d0 <> None) by (apply (Hin (n, p, r)); left; reflexivity).
    destruct (PyDict.get n d0) as [en|] eqn:Hgn; [|congruence].
    rewrite IH.
    + cbn [filter fst]. destruct (string_dec s n) as [->|Hne].
      * rewrite String.eqb_refl, PyDictFacts.get_set_eq, Hgn.
        unfold entry_app, triples_entry. cbn. rewrite <- !app_assoc. reflexivity.
      * rewrite PyDictFacts.get_set_ne by exact Hne.
        apply not_eq_sym, String.eqb_neq in Hne. rewrite Hne. reflexivity.
    + intros t Ht. destruct (string_dec (fst (fst t)) n) as [->|Hne].
      * rewrite PyDictFacts.get_set_eq. discriminate.
      * rewrite PyDictFacts.get_set_ne by exact Hne. apply Hin. right; exact Ht.
Qed.

Lemma in_combine_names (names : list string) (ps rs : list Z) t :
  In t (combine (combine names ps) rs) -> In (fst (fst t)) names.
Proof.
  destruct t as [[n p] r]. intros H. apply in_combine_l in H. apply in_combine_l in H. exact H.
Qed.

(** X10: a rank's [bench_names] has a key for every name of the dataset,
    and under each name the references and predictions of the rank's
    [zip(bench_name, preds, refs)] with that name, in order: the rank's
    i-th prediction is filed under the dataset's i-th name, and
    predictions beyond the number of names are dropped. *)
Theorem local_bench_names_get (rl : rank_local) (s : string) :
  PyDict.get s (local_bench_names rl) =
  if existsb (String.eqb s) (bench_name rl) then Some (triples_entry (named_triples s rl))
  else None.
Proof.
  unfold local_bench_names. rewrite local_step_spec.
  - rewrite get_map_const.
    destruct (existsb (String.eqb s) (py_set (bench_name rl))) eqn:H1;
    destruct (existsb (String.eqb s) (bench_name rl)) eqn:H2; try reflexivity.
    + rewrite (proj2 (existsb_eqb_in _ _)
                 (proj1 (py_set_in _ _) (proj1 (existsb_eqb_in _ _) H1))) in H2.
      discriminate.
    + rewrite (proj2 (existsb_eqb_in _ _)
                 (proj2 (py_set_in _ _) (proj1 (existsb_eqb_in _ _) H2))) in H1.
      discriminate.
  - intros t Ht. rewrite get_map_const.
    rewrite (proj2 (existsb_eqb_in _ _) (proj2 (py_set_in _ _) (in_combine_names _ _ _ _ Ht))).
    discriminate.
Qed.

Lemma local_bench_names_nodup rl : NoDup (map fst (local_bench_names rl)).
Proof.
  unfold local_bench_names. apply AggregationFacts.fold_left_inv.
  - rewrite map_map. cbn. rewrite map_id. apply py_set_nodup.
  - intros d [[s p] r] _ Hd. destruct (PyDict.get s d); [|exact Hd].
    apply PyDictFacts.set_nodup, Hd.
Qed.

Lemma combine_step_get comb n data s :
  PyDict.get s (combine_step comb (n, data)) =
  if String.eqb s n then Some (entry_app (entry_of s comb) data) else PyDict.get s comb.
Proof.
  unfold combine_step, PyDict.mem.
  destruct (PyDict.get n comb) as [en|] eqn:Hgn.
  - rewrite Hgn. destruct (string_dec s n) as [->|Hne].
    + rewrite String.eqb_refl, PyDictFacts.get_set_eq. unfold entry_of. rewrite Hgn. reflexivity.
    + rewrite PyDictFacts.get_set_ne by exact Hne. apply String.eqb_neq in Hne. rewrite Hne.
      reflexivity.
  - rewrite PyDictFacts.get_set_eq. destruct (string_dec s n) as [->|Hne].
    + rewrite String.eqb_refl, PyDictFacts.get_set_eq. unfold entry_of. rewrite Hgn. reflexivity.
    + rewrite !PyDictFacts.get_set_ne by exact Hne. apply String.eqb_neq in Hne. rewrite Hne.
      reflexivity.
Qed.

Lemma combine_dict_get (bn comb : PyDict.dict entry) s :
  NoDup (map fst bn) ->
  PyDict.get s (fold_left combine_step bn comb) =
  if PyDict.mem s bn then Some (entry_app (entry_of s comb) (entry_of s bn))
  else PyDict.get s comb.
Proof.
  revert comb. induction bn as [|[n data] bn IH]; intros comb Hnd; [reflexivity|].
  inversion Hnd as [|? ? Hn Hnd']; subst. cbn [fold_left].
  rewrite (IH _ Hnd'). unfold PyDict.mem, entry_of. cbn [PyDict.get].
  destruct (string_dec s n) as [->|Hne].
  - assert (PyDict.get n bn = None) as -> by (apply PyDictFacts.get_none_not_in; exact Hn).
    rewrite (combine_step_get comb n data n), String.eqb_refl. reflexivity.
  - rewrite (combine_step_get comb n data s). apply String.eqb_neq in Hne. rewrite Hne.
    reflexivity.
Qed.

Lemma entry_app_assoc a b c : entry_app (entry_app a b) c = entry_app a (entry_app b c).
Proof. unfold entry_app. cbn. rewrite !app_assoc. reflexivity. Qed.

Lemma entry_app_empty e : entry_app e empty_entry = e.
Proof. unfold entry_app. cbn. rewrite !app_nil_r. destruct e; reflexivity. Qed.

Lemma concat_entries_cons s d gs :
  concat_entries s (d :: gs) = entry_app (entry_of s d) (concat_entries s gs).
Proof. reflexivity. Qed.

Lemma combine_all_get (gathered : list (PyDict.dict entry)) comb s :
  Forall (fun d => NoDup (map fst d)) gathered ->
  PyDict.get s (fold_left (fun comb bn => fold_left combine_step bn comb) gathered comb) =
  if PyDict.mem s comb || existsb (PyDict.mem s) gathered
  then Some (entry_app (entry_of s comb) (concat_entries s gathered))
  else None.
Proof.
  revert comb. induction gathered as [|d gs IH]; intros comb Hnd.
  - cbn. unfold PyDict.mem, entry_of. rewrite orb_false_r.
    destruct (PyDict.get s comb) as [e|]; [|reflexivity]. rewrite entry_app_empty. reflexivity.
  - inversion Hnd as [|? ? Hd Hgs]; subst. cbn [fold_left existsb flat_map].
    rewrite (IH _ Hgs), concat_entries_cons.
    assert (Hget := combine_dict_get d comb s Hd).
    unfold PyDict.mem, entry_of in *. rewrite Hget.
    destruct (PyDict.get s d) as [ed|] eqn:Hsd; cbn [orb].
    + rewrite orb_true_r. cbn [orb]. rewrite entry_app_assoc. reflexivity.
    + destruct (PyDict.get s comb) as [ec|]; cbn [orb]; reflexivity.
Qed.

Lemma named_triples_absent s rl :
  existsb (String.eqb s) (bench_name rl) = false -> named_triples s rl = [].
Proof.
  intros H. unfold named_triples.
  rewrite (filter_ext_in _ (fun _ => false)); [apply filter_false|].
  intros t Ht. apply in_combine_names in Ht.
  destruct (String.eqb (fst (fst t)) s) eqn:E; [|reflexivity].
  apply String.eqb_eq in E. rewrite E in Ht.
  apply existsb_eqb_in in Ht. congruence.
Qed.

Lemma triples_entry_app a b :
  triples_entry (a ++ b) = entry_app (triples_entry a) (triples_entry b).
Proof. unfold triples_entry, entry_app. cbn. rewrite !map_app. reflexivity. Qed.

Lemma concat_local_entries s ranks :
  concat_entries s (map local_bench_names ranks) = triples_entry (flat_map (named_triples s) ranks).
Proof.
  induction ranks as [|rl ranks IH]; [reflexivity|].
  cbn [map flat_map]. rewrite concat_entries_cons, IH, triples_entry_app. f_equal.
  unfold entry_of. rewrite local_bench_names_get.
  destruct (existsb (String.eqb s) (bench_name rl)) eqn:H; [reflexivity|].
  rewrite named_triples_absent by exact H. reflexivity.
Qed.

Lemma existsb_map' {A B} (f : B -> bool) (g : A -> B) l :
  existsb f (map g l) = existsb (fun x => f (g x)) l.
Proof. induction l as [|x l IH]; cbn; [reflexivity|]. rewrite IH. reflexivity. Qed.

Lemma existsb_ext' {A} (f g : A -> bool) l :
  (forall x, f x = g x) -> existsb f l = existsb g l.
Proof. intros H. induction l as [|x l IH]; cbn; [reflexivity|]. rewrite H, IH. reflexivity. Qed.

(** X11: after combining the ranks' [bench_names], a name of some rank's
    dataset holds the references and predictions filed under it by rank
    0, then rank 1, and so on; a name of no rank has no entry. *)
Theorem combined_bench_names_get (ranks : list rank_local) (s : string) :
  PyDict.get s (combine_bench_names (map local_bench_names ranks)) =
  if existsb (fun rl => existsb (String.eqb s) (bench_name rl)) ranks
  then Some (triples_entry (flat_map (named_triples s) ranks))
  else None.
Proof.
  unfold combine_bench_names. rewrite combine_all_get.
  - cbn [PyDict.mem PyDict.get orb]. rewrite existsb_map', concat_local_entries.
    rewrite (existsb_ext' _ (fun rl => existsb (String.eqb s) (bench_name rl))).
    + destruct (existsb _ ranks); [|reflexivity]. unfold entry_of. cbn. reflexivity.
    + intros rl. unfold PyDict.mem. rewrite local_bench_names_get.
      destruct (existsb (String.eqb s) (bench_name rl)); reflexivity.
  - apply Forall_forall. intros d Hd. apply in_map_iff in Hd as [rl [<- _]].
    apply local_bench_names_nodup.
Qed.

Lemma combine_const {A B C} (ms : list A) (k : list B) (c : C) :
  List.length ms = List.length k -> combine ms (map (fun _ => c) k) = map (fun m => (m, c)) ms.
Proof.
  revert k. induction ms as [|m ms IH]; intros [|x k] H; cbn in *; try discriminate;
    [reflexivity|].
  rewrite IH by lia. reflexivity.
Qed.

Lemma on_evaluate_out ranks metrics res :
  main_results ranks = inr res -> List.length metrics = List.length ranks ->
  on_evaluate ranks metrics = inr (map (fun m => PyDict.update m res) metrics).
Proof.
  intros Hres Hlen. pose proof (AggregationFacts.main_results_ranks_nonempty _ _ Hres) as Hr.
  unfold on_evaluate. rewrite Hres. f_equal.
  destruct ranks as [|r0 rest]; [contradiction|]. cbn [tl broadcast_dict]. rewrite map_map.
  change (res :: map (fun _ : rank_local => res) rest) with (map (fun _ => res) (r0 :: rest)).
  rewrite combine_const by exact Hlen. rewrite map_map. reflexivity.
Qed.

(** X12: [on_evaluate] changes no key of a rank's [metrics] other than the
    keys of the main process's [results]. *)
Theorem on_evaluate_keeps_other_metrics (ranks : list rank_local)
    (metrics out : list (PyDict.dict num)) (res : PyDict.dict num) :
  main_results ranks = inr res ->
  List.length metrics = List.length ranks ->
  on_evaluate ranks metrics = inr out ->
  forall i m m', nth_error metrics i = Some m -> nth_error out i = Some m' ->
  forall k, PyDict.get k res = None -> PyDict.get k m' = PyDict.get k m.
Proof.
  intros Hres Hlen Hout i m m' Hm Hm' k Hk.
  rewrite (on_evaluate_out _ _ _ Hres Hlen) in Hout. injection Hout as <-.
  rewrite nth_error_map, Hm in Hm'. injection Hm' as <-.
  rewrite PyDictFacts.get_update by exact (AggregationFacts.main_results_nodup _ _ Hres).
  rewrite Hk. reflexivity.
Qed.

Lemma on_evaluate_keeps_other_metrics_witness :
  exists out,
    on_evaluate [Samples.rank0; Samples.rank1] [[("epoch"%string, Fin 1)]; []] = inr out /\
    forall m', nth_error out 0 = Some m' -> PyDict.get "epoch" m' = Some (Fin 1).
Proof.
  set (metrics := [[("epoch"%string, Fin 1)]; []] : list (PyDict.dict num)).
  set (res := match main_results [Samples.rank0; Samples.rank1] with
              | inr r => r | inl _ => [] end).
  assert (Hres : main_results [Samples.rank0; Samples.rank1] = inr res)
    by (vm_compute; reflexivity).
  set (out := match on_evaluate [Samples.rank0; Samples.rank1] metrics with
              | inr o => o | inl _ => [] end).
  assert (Hout : on_evaluate [Samples.rank0; Samples.rank1] metrics = inr out)
    by (vm_compute; reflexivity).
  exists out. split; [exact Hout|]. intros m' Hm'.
  rewrite (on_evaluate_keeps_other_metrics _ metrics out res Hres eq_refl Hout 0
             [("epoch"%string, Fin 1)] m' eq_refl Hm' "epoch" ltac:(vm_compute; reflexivity)).
  reflexivity.
Defined.

(** X13: when no rank has a batch in its bench data loader, [on_evaluate]
    raises the ZeroDivisionError of [sum(loss_bench_ranks) / sum(len_data_loader_ranks)]. *)
Theorem on_evaluate_empty_loaders (ranks : list rank_local) (metrics : list (PyDict.dict num)) :
  Forall (fun rl => len_data_loader rl = 0) ranks ->
  on_evaluate ranks metrics = inl ZeroDivisionError.
Proof.
  intros H. unfold on_evaluate, main_results, bench_loss, gather_scalar_from_all_ranks.
  assert (Hz : fold_left Z.add (map len_data_loader ranks) 0 = 0).
  { induction H as [|rl ranks Hrl _ IH]; [reflexivity|]. cbn. rewrite Hrl. exact IH. }
  rewrite Hz. reflexivity.
Qed.

Lemma on_evaluate_empty_loaders_witness :
  on_evaluate
    [{| bench_name := ["math"]%string; rank_preds := []; rank_refs := [];
        loss_bench := 0; len_data_loader := 0 |};
     {| bench_name := ["math"]%string; rank_preds := []; rank_refs := [];
        loss_bench := 0; len_data_loader := 0 |}] [[]; []]
  = inl ZeroDivisionError.
Proof. apply on_evaluate_empty_loaders. repeat constructor. Defined.

End BenchExtraFacts.

(** ** [LogPredictionCallback] *)

Module LogPredictionFacts.
Import LogPrediction LogPredictionViews.

Lemma find_ranges_eq lst :
  find_ranges lst =
  let '(ranges, start) :=
    fold_left find_ranges_step
      (combine (map Z.of_nat (seq 1 (List.length lst - 1))) (tl lst)) ([], 0) in
  ranges ++ [(start, Z.of_nat (List.length lst) - 1)].
Proof. reflexivity. Qed.

Lemma last_cons2 {A} (a b : A) l d d' : last (a :: b :: l) d = last (b :: l) d'.
Proof.
  revert a b. induction l as [|c l IH]; intros a b; [reflexivity|].
  change (last (b :: c :: l) d = last (b :: c :: l) d'). apply IH.
Qed.

Lemma fold_find_ranges ps ranges start :
  let zs := map fst (filter (fun ix => Z.eqb (snd ix) 0) ps) in
  fold_left find_ranges_step ps (ranges, start) =
  (ranges ++ combine (start :: zs) (map (fun z => z - 1) zs), last (start :: zs) start).
Proof.
  revert ranges start. induction ps as [|[i x] ps IH]; intros ranges start; cbn -[last].
  - rewrite app_nil_r. reflexivity.
  - destruct (Z.eqb x 0) eqn:Hx; cbn [fst map].
    + rewrite IH. rewrite <- app_assoc. cbn [app]. f_equal. symmetry. apply last_cons2.
    + apply IH.
Qed.

Lemma combine_last (a : Z) l y :
  combine (a :: l) (map (fun z => z - 1) l) ++ [(last (a :: l) a, y)] =
  combine (a :: l) (map (fun z => z - 1) l ++ [y]).
Proof.
  revert a. induction l as [|b l IH]; intros a; [reflexivity|].
  cbn [map combine app]. f_equal.
  specialize (IH b). cbn [combine map app] in IH |- *.
  rewrite (last_cons2 a b l a b). exact IH.
Qed.

Lemma zeros_of_combine (l : list Z) m :
  map fst (filter (fun ix => Z.eqb (snd ix) 0) (combine (map Z.of_nat (seq m (List.length l))) l)) =
  map Z.of_nat (filter (fun i => Z.eqb (nth (i - m) l 1) 0) (seq m (List.length l))).
Proof.
  revert m. induction l as [|x l IH]; intros m; [reflexivity|].
  assert (He : filter (fun i => Z.eqb (nth (i - S m) l 1) 0) (seq (S m) (List.length l)) =
               filter (fun i => Z.eqb (nth (i - m) (x :: l) 1) 0) (seq (S m) (List.length l))).
  { apply filter_ext_in. intros i Hi. apply in_seq in Hi.
    replace (i - m)%nat with (S (i - S m)) by lia. reflexivity. }
  cbn [List.length seq map combine]. cbn [filter]. rewrite Nat.sub_diag. cbn [nth snd].
  destruct (Z.eqb x 0); cbn [map fst]; rewrite IH, He; reflexivity.
Qed.

(** X14: [find_ranges] cuts [0 .. len(lst) - 1] into consecutive ranges,
    a new one starting at every position [i >= 1] with [lst[i] == 0]; the
    empty list gives the single range [(0, -1)]. *)
Theorem find_ranges_zero_positions (lst : list Z) :
  let zs := map Z.of_nat (zero_positions lst) in
  find_ranges lst =
  combine (0 :: zs) (map (fun z => z - 1) zs ++ [Z.of_nat (List.length lst) - 1]).
Proof.
  intros zs. rewrite find_ranges_eq.
  destruct lst as [|x rest].
  - reflexivity.
  - cbn [tl List.length]. replace (S (List.length rest) - 1)%nat with (List.length rest) by lia.
    rewrite fold_find_ranges, zeros_of_combine. cbn [app].
    assert (Hz : map Z.of_nat (filter (fun i => Z.eqb (nth (i - 1) rest 1) 0)
                                      (seq 1 (List.length rest))) = zs).
    { subst zs. unfold zero_positions. cbn [List.length].
      replace (S (List.length rest) - 1)%nat with (List.length rest) by lia.
      f_equal. apply filter_ext_in. intros i Hi. apply in_seq in Hi.
      destruct i as [|i]; [lia|]. cbn [nth]. replace (S i - 1)%nat with i by lia. reflexivity. }
    rewrite Hz. apply combine_last.
Qed.

Lemma fold_nonzero_block l m acc :
  Forall (fun x => x <> 0) l ->
  fold_left find_ranges_step (combine (map Z.of_nat (seq m (List.length l))) l) acc = acc.
Proof.
  revert m acc. induction l as [|x l IH]; intros m [ranges start] Hl; [reflexivity|].
  inversion Hl as [|? ? Hx Hl']; subst.
  cbn [List.length seq map combine fold_left].
  unfold find_ranges_step at 2. apply Z.eqb_neq in Hx. rewrite Hx.
  apply IH, Hl'.
Qed.

Lemma fold_nonzero_block_n l m n acc :
  List.length l = n -> Forall (fun x => x <> 0) l ->
  fold_left find_ranges_step (combine (map Z.of_nat (seq m n)) l) acc = acc.
Proof. intros <-. apply fold_nonzero_block. Qed.

Lemma combine_app' {A B} (a1 a2 : list A) (b1 b2 : list B) :
  List.length a1 = List.length b1 ->
  combine (a1 ++ a2) (b1 ++ b2) = combine a1 b1 ++ combine a2 b2.
Proof.
  revert b1. induction a1 as [|x a1 IH]; intros [|y b1] H; cbn in *; try discriminate;
    [reflexivity|].
  f_equal. apply IH. lia.
Qed.

Lemma seq_tail_nonzero n : Forall (fun x => x <> 0) (map Z.of_nat (seq 1 n)).
Proof.
  apply Forall_forall. intros x Hx. apply in_map_iff in Hx as [k [<- Hk]].
  apply in_seq in Hk. lia.
Qed.

Lemma seq_0_S n : map Z.of_nat (seq 0 (S n)) = 0 :: map Z.of_nat (seq 1 n).
Proof. reflexivity. Qed.

Lemma fold_packed ns ranges (start : Z) (m p : nat) :
  Z.of_nat m = start + Z.of_nat p ->
  Forall (fun n => (0 < n)%nat) ns ->
  (let '(r, st) :=
     fold_left find_ranges_step
       (combine (map Z.of_nat (seq m (List.length (packed_position_ids ns))))
                (packed_position_ids ns)) (ranges, start) in
   r ++ [(st, Z.of_nat (m + List.length (packed_position_ids ns)) - 1)])
  = ranges ++ segments start (p :: ns).
Proof.
  revert ranges start m p. induction ns as [|n ns IH]; intros ranges start m p Hm Hpos.
  - cbn. f_equal. f_equal. f_equal. lia.
  - inversion Hpos as [|? ? Hn Hns]; subst.
    destruct n as [|n]; [lia|].
    unfold packed_position_ids at 1 2 3. cbn [flat_map].
    fold (packed_position_ids ns). rewrite seq_0_S.
    cbn [app List.length seq map combine fold_left].
    unfold find_ranges_step at 2. rewrite Z.eqb_refl.
    rewrite ?length_app, ?length_map, ?length_seq, seq_app, map_app, combine_app'
      by (rewrite !length_map, !length_seq; reflexivity).
    rewrite fold_left_app, (fold_nonzero_block_n (map Z.of_nat (seq 1 n)))
      by (rewrite ?length_map, ?length_seq; auto using seq_tail_nonzero).
    replace (S m + n)%nat with (m + S n)%nat by lia.
    replace (m + S (n + List.length (packed_position_ids ns)))%nat
      with (m + S n + List.length (packed_position_ids ns))%nat by lia.
    rewrite (IH _ (Z.of_nat m) (m + S n)%nat (S n)) by (auto; lia).
    cbn [segments]. rewrite <- app_assoc, <- Hm. cbn [app]. reflexivity.
Qed.

(** X15: on the position ids of sequences of positive lengths packed
    together, [find_ranges] returns exactly the bounds of the packed
    sequences. *)
Theorem find_ranges_packed (lens : list nat) :
  lens <> [] -> Forall (fun n => (0 < n)%nat) lens ->
  find_ranges (packed_position_ids lens) = segments 0 lens.
Proof.
  intros Hne Hpos. destruct lens as [|n ns]; [congruence|].
  inversion Hpos as [|? ? Hn Hns]; subst. destruct n as [|n]; [lia|].
  rewrite find_ranges_eq.
  unfold packed_position_ids at 1 2 3. cbn [flat_map]. fold (packed_position_ids ns).
  rewrite seq_0_S. cbn [app tl List.length].
  rewrite ?length_app, ?length_map, ?length_seq.
  replace (S (n + List.length (packed_position_ids ns)) - 1)%nat
    with (n + List.length (packed_position_ids ns))%nat by lia.
  rewrite seq_app, map_app, combine_app' by (rewrite !length_map, !length_seq; reflexivity).
  rewrite fold_left_app, (fold_nonzero_block_n (map Z.of_nat (seq 1 n)))
    by (rewrite ?length_map, ?length_seq; auto using seq_tail_nonzero).
  replace (1 + n)%nat with (0 + S n)%nat by lia.
  replace (S (n + List.length (packed_position_ids ns)))
    with (0 + S n + List.length (packed_position_ids ns))%nat by lia.
  rewrite (fold_packed ns [] 0 (0 + S n)%nat (S n)) by (auto; lia).
  reflexivity.
Qed.

Lemma find_ranges_packed_witness :
  find_ranges (packed_position_ids [3; 2; 1]%nat) = [(0, 2); (3, 4); (5, 5)].
Proof.
  rewrite (find_ranges_packed [3; 2; 1]%nat ltac:(discriminate) ltac:(repeat constructor)).
  reflexivity.
Defined.

Lemma enum_from_app ri a b :
  enum_from ri (a ++ b) = enum_from ri a ++ enum_from (ri + Z.of_nat (List.length a)) b.
Proof.
  revert ri. induction a as [|r a IH]; intros ri; cbn [app enum_from List.length].
  - rewrite Z.add_0_r. reflexivity.
  - rewrite IH. do 3 f_equal. lia.
Qed.

Lemma fold_rows rows t ri :
  fold_left (fun acc r => let '(t, ri) := acc in (t ++ [(ri, r)], ri + 1)) rows (t, ri) =
  (t ++ enum_from ri rows, ri + Z.of_nat (List.length rows)).
Proof.
  revert t ri. induction rows as [|r rows IH]; intros t ri; cbn [fold_left enum_from List.length].
  - rewrite app_nil_r, Z.add_0_r. reflexivity.
  - rewrite IH, <- app_assoc. cbn [app]. f_equal. lia.
Qed.

Lemma enum_from_seq m rows :
  enum_from (Z.of_nat m) rows = combine (map Z.of_nat (seq m (List.length rows))) rows.
Proof.
  revert m. induction rows as [|r rows IH]; intros m; [reflexivity|].
  cbn [enum_from List.length seq map combine]. rewrite <- IH. do 2 f_equal. lia.
Qed.

Lemma table_loop_spec size bs ri tbl :
  exists j,
    Forall (fun b => batch_rows b <> []) (firstn j bs) /\
    ((0 < j)%nat ->
     ri + Z.of_nat (List.length (flat_map batch_rows (firstn (pred j) bs))) <= size) /\
    match table_loop size bs ri tbl with
    | inr t =>
        t = tbl ++ enum_from ri (flat_map batch_rows (firstn j bs)) /\
        (j = List.length bs \/
         size < ri + Z.of_nat (List.length (flat_map batch_rows (firstn j bs))))
    | inl _ =>
        exists b, nth_error bs j = Some b /\ batch_rows b = [] /\
          ri + Z.of_nat (List.length (flat_map batch_rows (firstn j bs))) <= size
    end.
Proof.
  revert ri tbl. induction bs as [|b bs IH]; intros ri tbl.
  - exists O. cbn. rewrite app_nil_r.
    split; [constructor|split; [lia|split; [reflexivity|left; reflexivity]]].
  - cbn [table_loop]. destruct (ri >? size) eqn:Hri.
    + exists O. cbn. rewrite app_nil_r. rewrite Z.gtb_ltb in Hri. apply Z.ltb_lt in Hri.
      split; [constructor|split; [lia|split; [reflexivity|right; lia]]].
    + rewrite Z.gtb_ltb in Hri. apply Z.ltb_ge in Hri.
      destruct (batch_rows b) as [|r rs] eqn:Hb.
      * exists O. cbn. split; [constructor|split; [lia|]].
        exists b. split; [reflexivity|split; [exact Hb|lia]].
      * rewrite <- Hb, fold_rows.
        destruct (IH (ri + Z.of_nat (List.length (batch_rows b)))
                     (tbl ++ enum_from ri (batch_rows b))) as [j [Hne [Hprev Hres]]].
        exists (S j). split; [|split].
        -- cbn [firstn]. constructor; [rewrite Hb; discriminate|exact Hne].
        -- intros _. destruct j as [|j]; [cbn; lia|].
           specialize (Hprev ltac:(lia)). cbn [pred] in Hprev |- *.
           cbn [firstn flat_map]. rewrite length_app. lia.
        -- destruct (table_loop size bs _ _) as [e|t].
           ++ destruct Hres as [b' [Hn [Hb' Hle]]]. exists b'.
              cbn [nth_error firstn flat_map]. rewrite length_app.
              split; [exact Hn|split; [exact Hb'|lia]].
           ++ destruct Hres as [Ht Hlast]. cbn [firstn flat_map List.length].
              rewrite Ht, enum_from_app, app_assoc, length_app. split; [reflexivity|].
              destruct Hlast as [->|Hlast]; [left; reflexivity|right; lia].
Qed.

(** X16: [on_evaluate] logs no table when [eval_table_size <= 0] or off
    the main process.  Otherwise the loop reads the first [j] batches,
    which all keep some range, holding at most [eval_table_size] rows
    before the last of them.  If the next batch is read and keeps no
    range, the call raises.  If not, the table holds the kept ranges of
    these [j] batches, in order and numbered from 0, and either they are
    all the batches or they give more than [eval_table_size] rows. *)
Theorem log_prediction_table (eval_table_size : Z) (is_main_process : bool)
    (batches : list batch) :
  match on_evaluate eval_table_size is_main_process batches with
  | inr None => eval_table_size <= 0 \/ is_main_process = false
  | inr (Some table) =>
      0 < eval_table_size /\ is_main_process = true /\
      exists j,
        let rows := flat_map batch_rows (firstn j batches) in
        Forall (fun b => batch_rows b <> []) (firstn j batches) /\
        table = combine (map Z.of_nat (seq 0 (List.length rows))) rows /\
        (j = List.length batches \/ eval_table_size < Z.of_nat (List.length rows)) /\
        Z.of_nat (List.length (flat_map batch_rows (firstn (pred j) batches))) <= eval_table_size
  | inl _ =>
      0 < eval_table_size /\ is_main_process = true /\
      exists j b,
        Forall (fun b => batch_rows b <> []) (firstn j batches) /\
        nth_error batches j = Some b /\ batch_rows b = [] /\
        Z.of_nat (List.length (flat_map batch_rows (firstn j batches))) <= eval_table_size
  end.
Proof.
  unfold on_evaluate. destruct (eval_table_size <=? 0) eqn:Hs.
  - left. apply Z.leb_le, Hs.
  - apply Z.leb_gt in Hs. destruct is_main_process; [|right; reflexivity].
    destruct (table_loop_spec eval_table_size batches 0 []) as [j [Hne [Hprev Hres]]].
    unfold log_table_from_dataloader.
    destruct (table_loop eval_table_size batches 0 []) as [e|t].
    + split; [exact Hs|split; [reflexivity|]].
      destruct Hres as [b [Hn [Hb Hle]]]. exists j, b. auto.
    + split; [exact Hs|split; [reflexivity|]].
      destruct Hres as [Ht Hlast]. exists j. cbn [app] in Ht.
      rewrite <- enum_from_seq. split; [exact Hne|split; [exact Ht|split; [exact Hlast|]]].
      destruct j as [|j]; [cbn; lia|]. specialize (Hprev ltac:(lia)). lia.
Qed.

End LogPredictionFacts.
